(** * FlashLearn: study-session queue and progress reconciliation

    A shallow embedding of the two places of the repository that carry
    state-machine and consistency logic:

    - [src/utils/supabase/operations.ts]: [updateStudyProgress] (streak
      arithmetic) and [syncUserProgress] (aggregate recomputation);
    - [components/StudyModeScreen.tsx]: the React component that owns the
      study queue, the review queue and the auto-flip timer.

    Numbers are [Z] (all the values involved are small integers, exact in
    JavaScript's doubles), instants are milliseconds since the epoch,
    JavaScript exceptions are the [Throw] case of a completion. *)

From Stdlib Require Import ZArith NArith List String Ascii Bool Arith Lia.
Import ListNotations.

Set Implicit Arguments.

(* ================================================================== *)
(** ** JavaScript values shared by both files *)

Module Js.

(** The outcome of calling a function that may [throw new Error(message)]. *)
Inductive completion (A : Type) : Type :=
| Normal (value : A)
| Throw (message : string).

Arguments Normal {A} value.
Arguments Throw {A} message.

Definition threw {A : Type} (c : completion A) : bool :=
  match c with
  | Normal _ => false
  | Throw _ => true
  end.

(** [x || 0] on a number: [0] (the only falsy integer) is replaced by [0]. *)
Definition or0 (x : Z) : Z := if (x =? 0)%Z then 0%Z else x.

(** [s || null] on a string: the empty string is falsy. *)
Definition orNull (s : option string) : option string :=
  match s with
  | Some id => if String.eqb id EmptyString then None else Some id
  | None => None
  end.

(** One day in milliseconds, the literal [86400000] of the source. *)
Definition DAY_MS : Z := 86400000%Z.

(** [new Date(t).toDateString()] names the local calendar day of the instant
    [t].  Two such strings are equal exactly when the days are, so the
    string is represented by the number of the day.  The time zone is a
    fixed offset [tz] (in milliseconds) from UTC; daylight-saving changes
    are outside the model. *)
Definition toDateString (tz t : Z) : Z := ((t + tz) / DAY_MS)%Z.

(** Days since 1970-01-01 of a proleptic Gregorian date; used to write the
    instants of the documented scenarios. *)
Definition days_from_civil (y m d : Z) : Z :=
  let y' := (if m <=? 2 then y - 1 else y)%Z in
  let era := (y' / 400)%Z in
  let yoe := (y' - era * 400)%Z in
  let mp := ((m + 9) mod 12)%Z in
  let doy := ((153 * mp + 2) / 5 + d - 1)%Z in
  let doe := (yoe * 365 + yoe / 4 - yoe / 100 + doy)%Z in
  (era * 146097 + doe - 719468)%Z.

(** The instant [y-m-d hh:00:00.000Z]. *)
Definition utc (y m d hh : Z) : Z :=
  (days_from_civil y m d * DAY_MS + hh * 3600000)%Z.

End Js.

(* ================================================================== *)
(** ** operations.ts: user progress *)

Module Operations.
Import Js.

Local Open Scope Z_scope.

(** Row of table [user_progress] (interface [UserProgress]). *)
Record UserProgress : Type := mkUserProgress {
  user_id : string;
  total_cards : Z;
  mastered_cards : Z;
  current_streak : Z;
  longest_streak : Z;
  last_study_date : option Z;
  created_at : Z;
  updated_at : Z
}.

(** Row of table [decks], restricted to the columns the progress code
    reads. *)
Record Deck : Type := mkDeck {
  deck_id : string;
  deck_user_id : string;
  card_count : Z;
  mastered_count : Z
}.

(** The object handed to [.upsert(...)]: the columns that are present are
    written, the others keep their stored value (or take the column default
    when the row is inserted). *)
Record ProgressPayload : Type := mkPayload {
  p_user_id : string;
  p_total_cards : option Z;
  p_mastered_cards : option Z;
  p_current_streak : option Z;
  p_longest_streak : option Z;
  p_last_study_date : option Z;
  p_updated_at : option Z
}.

(** What the Supabase client answers with.  [auth_user] is the signed-in
    user, [decks] and [user_progress] are the tables ([user_id] is the
    primary key of the latter), [decks_unreachable] makes the select on
    [decks] come back with [data = null], and [upsert_error] makes the
    upsert on [user_progress] report an error. *)
Record Backend : Type := mkBackend {
  auth_user : option string;
  decks : list Deck;
  user_progress : list UserProgress;
  decks_unreachable : bool;
  upsert_error : option string
}.

(** [getCurrentUserId]: [user?.id || null]. *)
Definition getCurrentUserId (b : Backend) : option string :=
  orNull (auth_user b).

(** [.from('user_progress').select('*').eq('user_id', userId).single()]. *)
Definition selectProgress (b : Backend) (userId : string) : option UserProgress :=
  find (fun r => String.eqb (user_id r) userId) (user_progress b).

(** [.from('decks').select('id, card_count, mastered_count').eq('user_id', userId)]. *)
Definition selectDecks (b : Backend) (userId : string) : option (list Deck) :=
  if decks_unreachable b then None
  else Some (filter (fun d => String.eqb (deck_user_id d) userId) (decks b)).

Definition orElse {A : Type} (o : option A) (d : A) : A :=
  match o with
  | Some a => a
  | None => d
  end.

(** The row an upsert leaves in the table: INSERT ... ON CONFLICT (user_id)
    DO UPDATE.  [now] is the server's clock for the column defaults. *)
Definition mergeRow (old : option UserProgress) (p : ProgressPayload) (now : Z)
  : UserProgress :=
  match old with
  | Some r =>
      {| user_id := user_id r;
         total_cards := orElse (p_total_cards p) (total_cards r);
         mastered_cards := orElse (p_mastered_cards p) (mastered_cards r);
         current_streak := orElse (p_current_streak p) (current_streak r);
         longest_streak := orElse (p_longest_streak p) (longest_streak r);
         last_study_date :=
           match p_last_study_date p with
           | Some t => Some t
           | None => last_study_date r
           end;
         created_at := created_at r;
         updated_at := orElse (p_updated_at p) (updated_at r) |}
  | None =>
      {| user_id := p_user_id p;
         total_cards := orElse (p_total_cards p) 0;
         mastered_cards := orElse (p_mastered_cards p) 0;
         current_streak := orElse (p_current_streak p) 0;
         longest_streak := orElse (p_longest_streak p) 0;
         last_study_date := p_last_study_date p;
         created_at := now;
         updated_at := orElse (p_updated_at p) now |}
  end.

Fixpoint replaceRow (row : UserProgress) (rows : list UserProgress)
  : list UserProgress :=
  match rows with
  | [] => [row]
  | r :: rest =>
      if String.eqb (user_id r) (user_id row) then row :: rest
      else r :: replaceRow row rest
  end.

(** [.from('user_progress').upsert(payload).select().single()] followed by
    [if (error) throw new Error(error.message); return data]. *)
Definition upsertProgress (b : Backend) (p : ProgressPayload) (now : Z)
  : Backend * completion UserProgress :=
  match upsert_error b with
  | Some message => (b, Throw message)
  | None =>
      let row := mergeRow (selectProgress b (p_user_id p)) p now in
      ({| auth_user := auth_user b;
          decks := decks b;
          user_progress := replaceRow row (user_progress b);
          decks_unreachable := decks_unreachable b;
          upsert_error := upsert_error b |},
       Normal row)
  end.

(** The streak block of [updateStudyProgress] (the two [let]s and the
    [if (currentProgress?.last_study_date)] statement): the pair
    [(newStreak, longestStreak)] it leaves. *)
Definition streakAfterStudy (tz : Z) (currentProgress : option UserProgress)
  (now : Z) : Z * Z :=
  let newStreak := 1 in
  let longestStreak :=
    match currentProgress with
    | Some p => or0 (longest_streak p)
    | None => 0
    end in
  match currentProgress with
  | Some p =>
      match last_study_date p with
      | Some last =>
          let lastStudyDate := toDateString tz last in
          let todayDate := toDateString tz now in
          if lastStudyDate =? todayDate then
            (* Already studied today, keep streak *)
            (current_streak p, longestStreak)
          else if toDateString tz last =? toDateString tz (now - DAY_MS) then
            (* Studied yesterday, increment streak *)
            let newStreak := or0 (current_streak p) + 1 in
            (newStreak,
             if longestStreak <? newStreak then newStreak else longestStreak)
          else (newStreak, longestStreak)
      | None => (newStreak, longestStreak)
      end
  | None => (newStreak, longestStreak)
  end.

(** The object [updateStudyProgress] upserts. *)
Definition studyPayload (tz : Z) (userId : string)
  (currentProgress : option UserProgress) (now masteredCount : Z)
  : ProgressPayload :=
  let today := now in
  let '(newStreak, longestStreak) := streakAfterStudy tz currentProgress now in
  {| p_user_id := userId;
     p_total_cards := None;
     p_mastered_cards :=
       Some (match currentProgress with
             | Some p => or0 (mastered_cards p)
             | None => 0
             end + masteredCount);
     p_current_streak := Some newStreak;
     p_longest_streak := Some longestStreak;
     p_last_study_date := Some today;
     p_updated_at := Some today |}.

(** [updateStudyProgress(masteredCount)], run at instant [now] (the function
    reads the clock several times; the reads are taken to return the same
    instant). *)
Definition updateStudyProgress (tz : Z) (b : Backend) (now masteredCount : Z)
  : Backend * completion UserProgress :=
  match getCurrentUserId b with
  | None => (b, Throw "Not authenticated")
  | Some userId =>
      let currentProgress := selectProgress b userId in
      upsertProgress b (studyPayload tz userId currentProgress now masteredCount) now
  end.

(** [decks?.reduce((sum, d) => sum + (d.FIELD || 0), 0) || 0]. *)
Definition sumColumn (field : Deck -> Z) (ds : option (list Deck)) : Z :=
  match ds with
  | Some l => or0 (fold_left (fun sum d => sum + or0 (field d)) l 0)
  | None => 0
  end.

(** [syncUserProgress()], run at instant [now]. *)
Definition syncUserProgress (b : Backend) (now : Z)
  : Backend * completion UserProgress :=
  match getCurrentUserId b with
  | None => (b, Throw "Not authenticated")
  | Some userId =>
      let ds := selectDecks b userId in
      let totalCards := sumColumn card_count ds in
      let masteredCards := sumColumn mastered_count ds in
      upsertProgress b
        {| p_user_id := userId;
           p_total_cards := Some totalCards;
           p_mastered_cards := Some masteredCards;
           p_current_streak := None;
           p_longest_streak := None;
           p_last_study_date := None;
           p_updated_at := Some now |}
        now
  end.

(** The two aggregate fields of a returned record. *)
Definition aggregates (c : completion UserProgress) : completion (Z * Z) :=
  match c with
  | Normal r => Normal (total_cards r, mastered_cards r)
  | Throw m => Throw m
  end.

(** The record [getUserProgress] creates on first access. *)
Definition freshProgress (userId : string) (now : Z) : UserProgress :=
  {| user_id := userId;
     total_cards := 0;
     mastered_cards := 0;
     current_streak := 0;
     longest_streak := 0;
     last_study_date := None;
     created_at := now;
     updated_at := now |}.

End Operations.

(* ================================================================== *)
(** ** StudyModeScreen.tsx: the study session *)

Module StudyMode.
Import Js.

Record Flashcard : Type := mkCard {
  id : string;
  front : string;
  back : string;
  mastered : bool
}.

(** The handle [setTimeout] returns. *)
Definition TimerId : Type := nat.

(** The six [useState] cells of the component, as one render sees them. *)
Record State : Type := mkState {
  currentIndex : nat;
  isFlipped : bool;
  studyCards : list Flashcard;
  reviewQueue : list Flashcard;
  completedCards : list Flashcard;
  autoFlipTimer : option TimerId
}.

(** What a handler or an effect does, in program order.  A handler reads
    the state cells of the render it was created in and never the queued
    updates; a state setter takes either a value or an updater function
    ([prev => ...]), both written as functions for the two queues that use
    updaters. *)
Inductive Action : Type :=
| SetCurrentIndex (n : nat)
| SetIsFlipped (b : bool)
| SetStudyCards (l : list Flashcard)
| SetReviewQueue (f : list Flashcard -> list Flashcard)
| SetCompletedCards (f : list Flashcard -> list Flashcard)
| SetAutoFlipTimer (t : option TimerId)
| ClearTimeout (t : TimerId)
| SetTimeout (t : TimerId) (delay : N)
| OnComplete (updatedCards : list Flashcard).

(** Auto-flip timer duration in milliseconds. *)
Definition AUTO_FLIP_DELAY : N := 5000%N.

(** The state of the first render: the [useState] initial values. *)
Definition initialState : State :=
  {| currentIndex := 0;
     isFlipped := false;
     studyCards := [];
     reviewQueue := [];
     completedCards := [];
     autoFlipTimer := None |}.

(** [const currentCard = studyCards[currentIndex]]; [None] is [undefined]. *)
Definition currentCard (s : State) : option Flashcard :=
  nth_error (studyCards s) (currentIndex s).

(** [{ ...card, mastered: true }]. *)
Definition markMastered (card : Flashcard) : Flashcard :=
  {| id := id card; front := front card; back := back card; mastered := true |}.

(** [completedCards.find(c => c.id === card.id) || card]. *)
Definition completedOr (completed : list Flashcard) (card : Flashcard) : Flashcard :=
  match find (fun c => String.eqb (id c) (id card)) completed with
  | Some c => c
  | None => card
  end.

Section Component.

(** The [cards] prop. *)
Variable cards : list Flashcard.

(** First effect: initialize the session with the cards that are not
    mastered. *)
Definition initEffect (s : State) : list Action :=
  let cardsToStudy := filter (fun card => negb (mastered card)) cards in
  [ SetStudyCards cardsToStudy;
    SetCompletedCards (fun _ => filter (fun card => mastered card) cards) ].

(** Second effect, dependencies [currentIndex, isFlipped].  [fresh] is the
    handle the next [setTimeout] returns. *)
Definition autoFlipEffect (s : State) (fresh : TimerId) : list Action :=
  (match autoFlipTimer s with
   | Some t => [ClearTimeout t; SetAutoFlipTimer None]
   | None => []
   end)
  ++
  (match currentCard s with
   | Some _ =>
       if negb (isFlipped s)
       then [SetTimeout fresh AUTO_FLIP_DELAY; SetAutoFlipTimer (Some fresh)]
       else []
   | None => []
   end).

(** The cleanup function the second effect returns. *)
Definition autoFlipCleanup (s : State) : list Action :=
  match autoFlipTimer s with
  | Some t => [ClearTimeout t]
  | None => []
  end.

(** The callback handed to [setTimeout]. *)
Definition timerCallback : list Action := [SetIsFlipped true].

Definition handleCardFlip (s : State) : list Action :=
  (match autoFlipTimer s with
   | Some t => [ClearTimeout t; SetAutoFlipTimer None]
   | None => []
   end)
  ++ [SetIsFlipped (negb (isFlipped s))].

Definition nextCard (s : State) : list Action :=
  SetIsFlipped false ::
  (if currentIndex s + 1 <? List.length (studyCards s) then
     [SetCurrentIndex (currentIndex s + 1)]
   else if 0 <? List.length (reviewQueue s) then
     (* Move to review queue *)
     [ SetStudyCards (reviewQueue s);
       SetReviewQueue (fun _ => []);
       SetCurrentIndex 0 ]
   else
     (* Session complete *)
     let allUpdatedCards := map (completedOr (completedCards s)) cards in
     [OnComplete allUpdatedCards]).

Definition handleKnown (s : State) : list Action :=
  match currentCard s with
  | None => []
  | Some current =>
      let updatedCard := markMastered current in
      SetCompletedCards (fun prev => prev ++ [updatedCard]) ::
      (if (List.length (studyCards s) <=? currentIndex s + 1)
          && (List.length (reviewQueue s) =? 0) then
         (* This is the last card - complete the session *)
         let allUpdatedCards :=
           map (fun card =>
                  if String.eqb (id card) (id current) then updatedCard
                  else completedOr (completedCards s) card)
               cards in
         [SetIsFlipped false; OnComplete allUpdatedCards]
       else nextCard s)
  end.

Definition handleReview (s : State) : list Action :=
  match currentCard s with
  | None => []
  | Some current =>
      SetReviewQueue (fun prev => prev ++ [current]) :: nextCard s
  end.

Definition handleRestart (s : State) : list Action :=
  [ SetCurrentIndex 0;
    SetIsFlipped false;
    SetStudyCards (filter (fun card => negb (mastered card)) cards);
    SetReviewQueue (fun _ => []);
    SetCompletedCards (fun _ => filter (fun card => mastered card) cards) ].

End Component.

(** *** React: the update queue *)

(** One queued state update applied to the cells; the other actions do not
    touch them. *)
Definition applyUpdate (s : State) (a : Action) : State :=
  match a with
  | SetCurrentIndex n =>
      mkState n (isFlipped s) (studyCards s) (reviewQueue s)
              (completedCards s) (autoFlipTimer s)
  | SetIsFlipped b =>
      mkState (currentIndex s) b (studyCards s) (reviewQueue s)
              (completedCards s) (autoFlipTimer s)
  | SetStudyCards l =>
      mkState (currentIndex s) (isFlipped s) l (reviewQueue s)
              (completedCards s) (autoFlipTimer s)
  | SetReviewQueue f =>
      mkState (currentIndex s) (isFlipped s) (studyCards s) (f (reviewQueue s))
              (completedCards s) (autoFlipTimer s)
  | SetCompletedCards f =>
      mkState (currentIndex s) (isFlipped s) (studyCards s) (reviewQueue s)
              (f (completedCards s)) (autoFlipTimer s)
  | SetAutoFlipTimer t =>
      mkState (currentIndex s) (isFlipped s) (studyCards s) (reviewQueue s)
              (completedCards s) t
  | ClearTimeout _ | SetTimeout _ _ | OnComplete _ => s
  end.

(** The cells of the next render: the queue is processed in order. *)
Definition commit (s : State) (acts : list Action) : State :=
  fold_left applyUpdate acts s.

(** The lists a run of a handler passed to [onComplete]. *)
Definition emitted (acts : list Action) : list (list Flashcard) :=
  flat_map (fun a => match a with OnComplete l => [l] | _ => [] end) acts.

(** *** The mounted component, its timers and its effects *)

(** [view] is the state of the latest render; [effectRender] is the state
    of the render in which the auto-flip effect last ran (its dependencies
    are compared with that render's, and its cleanup closes over that
    render's [autoFlipTimer]); [timers] are the pending timeouts with their
    due times; [completions] are the arguments [onComplete] was called with,
    latest first.  The [cards] prop is not a cell: the handlers take the
    value of the render they belong to as a parameter, and [receiveCards]
    below is the render in which the parent passes a new value.

    React is modelled as follows.  The updates an event handler queues are
    applied in order before the next render; a handler reads the cells of
    the render on screen.  After a render whose dependencies differ from
    those of the last run, the effect's previous cleanup and then the effect
    run, both before the next event.  Timeouts run their callback when the
    clock has reached their due time. *)
Record World : Type := mkWorld {
  view : State;
  effectRender : State;
  timers : list (TimerId * N);
  clock : N;
  nextTimer : TimerId;
  completions : list (list Flashcard)
}.

Definition deps (s : State) : nat * bool := (currentIndex s, isFlipped s).

Definition depsEqb (a b : nat * bool) : bool :=
  (fst a =? fst b) && Bool.eqb (snd a) (snd b).

Definition perform (w : World) (a : Action) : World :=
  match a with
  | ClearTimeout t =>
      mkWorld (view w) (effectRender w)
              (filter (fun p => negb (fst p =? t)) (timers w))
              (clock w) (nextTimer w) (completions w)
  | SetTimeout t delay =>
      mkWorld (view w) (effectRender w)
              (timers w ++ [(t, (clock w + delay)%N)])
              (clock w) (S t) (completions w)
  | OnComplete l =>
      mkWorld (view w) (effectRender w) (timers w)
              (clock w) (nextTimer w) (l :: completions w)
  | _ =>
      mkWorld (applyUpdate (view w) a) (effectRender w)
              (timers w) (clock w) (nextTimer w) (completions w)
  end.

Definition performAll (w : World) (acts : list Action) : World :=
  fold_left perform acts w.

(** Re-render after a batch of updates.  When a dependency of the auto-flip
    effect changed, the cleanup of its previous run is called and the
    effect runs in the new render; the [setAutoFlipTimer] calls it makes
    cause one more render, in which the dependencies are the same. *)
Definition settle (w : World) : World :=
  if depsEqb (deps (view w)) (deps (effectRender w)) then w
  else
    let s := view w in
    let w1 := performAll w (autoFlipCleanup (effectRender w)) in
    let w2 := performAll w1 (autoFlipEffect s (nextTimer w1)) in
    mkWorld (view w2) s (timers w2)
            (clock w2) (nextTimer w2) (completions w2).

(** An event handler of the render on screen runs, then React re-renders. *)
Definition handle (w : World) (h : State -> list Action) : World :=
  settle (performAll w (h (view w))).

(** Mounting: the first render has the initial cells; then both effects run
    in it, in the order they are declared. *)
Definition mount (cards : list Flashcard) : World :=
  let s0 := initialState in
  let w0 := mkWorld s0 s0 [] 0%N 1 [] in
  let w1 := performAll w0 (initEffect cards s0) in
  performAll w1 (autoFlipEffect s0 (nextTimer w1)).

(** Timeouts that are due run their callback, earliest registered first. *)
Fixpoint fireDue (fuel : nat) (w : World) : World :=
  match fuel with
  | O => w
  | S fuel' =>
      match find (fun p => (snd p <=? clock w)%N) (timers w) with
      | Some (t, _) =>
          let w1 := mkWorld (view w) (effectRender w)
                      (filter (fun p => negb (fst p =? t)) (timers w))
                      (clock w) (nextTimer w) (completions w) in
          fireDue fuel' (settle (performAll w1 timerCallback))
      | None => w
      end
  end.

Definition elapse (w : World) (dt : N) : World :=
  let w1 := mkWorld (view w) (effectRender w) (timers w)
              (clock w + dt)%N (nextTimer w) (completions w) in
  fireDue (List.length (timers w1)) w1.

(** What can happen to the mounted component: the four click handlers and
    the passing of [dt] milliseconds. *)
Inductive Event : Type :=
| ClickFlip
| ClickKnown
| ClickReview
| ClickRestart
| Elapse (dt : N).

Definition dispatch (cards : list Flashcard) (w : World) (e : Event) : World :=
  match e with
  | ClickFlip => handle w handleCardFlip
  | ClickKnown => handle w (handleKnown cards)
  | ClickReview => handle w (handleReview cards)
  | ClickRestart => handle w (handleRestart cards)
  | Elapse dt => elapse w dt
  end.

(** The events of a stretch of time in which the [cards] prop keeps the
    value [cards]. *)
Definition run (cards : list Flashcard) (w : World) (evs : list Event) : World :=
  fold_left (dispatch cards) evs w.

(** A render in which the parent passes a new [cards] array: App replaces
    the cards of the deck when it saves the list a session reported, and the
    screen is still mounted then.  The first effect, whose dependency is
    [cards], runs again: it refills the study queue and the completed cards
    and leaves the cursor, the face, the review queue and the timer handle
    as they are.  The render that follows compares the dependencies of the
    auto-flip effect as after every batch of updates. *)
Definition receiveCards (newCards : list Flashcard) (w : World) : World :=
  handle w (initEffect newCards).

(** What happens to the mounted component: an event, or a new value of the
    [cards] prop. *)
Inductive Step : Type :=
| Fires (e : Event)
| NewCards (newCards : list Flashcard).

(** The prop in force and the component, after one more step. *)
Definition advance (m : list Flashcard * World) (st : Step)
  : list Flashcard * World :=
  match st with
  | Fires e => (fst m, dispatch (fst m) (snd m) e)
  | NewCards newCards => (newCards, receiveCards newCards (snd m))
  end.

(** The life of the component from mounting on [cards]: the prop in force
    at the end and the component then. *)
Definition lifetime (cards : list Flashcard) (steps : list Step)
  : list Flashcard * World :=
  fold_left advance steps (cards, mount cards).

Definition isRestart (e : Event) : bool :=
  match e with
  | ClickRestart => true
  | _ => false
  end.

(** Calling a handler, or reading [currentCard], as a JavaScript completion:
    the component has no [throw] statement, so either completes normally. *)
Definition invoke (h : State -> list Action) (s : State)
  : completion (list Action) :=
  Normal (h s).

Definition readCurrentCard (s : State) : completion (option Flashcard) :=
  Normal (currentCard s).

(** The five cells that make up the session (all but the timer handle). *)
Definition session (s : State)
  : nat * bool * list Flashcard * list Flashcard * list Flashcard :=
  (currentIndex s, isFlipped s, studyCards s, reviewQueue s, completedCards s).

End StudyMode.

(* ================================================================== *)
(** ** The session engine in the words of the specification *)

Module SessionSpec.

(** This module does not come from the source: it writes down section 4.1 of
    the specification (SessionState, the pass-advance rule, [markKnown] and
    [markReview]) so that the handlers of [StudyMode] can be compared with
    it. *)

Record Engine : Type := mkEngine {
  primaryQueue : list StudyMode.Flashcard;
  reviewQueue : list StudyMode.Flashcard;
  cursor : nat;
  isFlipped : bool;
  completed : list StudyMode.Flashcard
}.

(** The pass-advance rule; the boolean says that the session is complete. *)
Definition passAdvance (e : Engine) : Engine * bool :=
  if cursor e + 1 <? List.length (primaryQueue e) then
    (mkEngine (primaryQueue e) (reviewQueue e) (cursor e + 1) false (completed e),
     false)
  else
    match reviewQueue e with
    | _ :: _ =>
        (mkEngine (reviewQueue e) [] 0 false (completed e), false)
    | [] => (e, true)
    end.

(** [markKnown()]: the current card becomes mastered and moves into
    [completed], then the pass advances; [None] is [NoCurrentCard]. *)
Definition markKnown (e : Engine) : option (Engine * bool) :=
  match nth_error (primaryQueue e) (cursor e) with
  | Some card =>
      Some (passAdvance
              (mkEngine (primaryQueue e) (reviewQueue e) (cursor e) (isFlipped e)
                        (completed e ++ [StudyMode.markMastered card])))
  | None => None
  end.

(** [markReview()]: the current card is appended to [reviewQueue] with its
    flag unchanged, then the pass advances. *)
Definition markReview (e : Engine) : option (Engine * bool) :=
  match nth_error (primaryQueue e) (cursor e) with
  | Some card =>
      Some (passAdvance
              (mkEngine (primaryQueue e) (reviewQueue e ++ [card]) (cursor e)
                        (isFlipped e) (completed e)))
  | None => None
  end.

(** The engine a state of the component stands for. *)
Definition engineOf (s : StudyMode.State) : Engine :=
  mkEngine (StudyMode.studyCards s) (StudyMode.reviewQueue s)
           (StudyMode.currentIndex s) (StudyMode.isFlipped s)
           (StudyMode.completedCards s).

(** Equality of engines up to the flip flag, which the rule leaves open when
    the session completes. *)
Definition sameQueues (a b : Engine) : Prop :=
  primaryQueue a = primaryQueue b /\ reviewQueue a = reviewQueue b /\
  cursor a = cursor b /\ completed a = completed b.

End SessionSpec.

(* ================================================================== *)
(** ** Scenario data *)

Module Scenario.
Import Js Operations StudyMode.

Local Open Scope string_scope.

Definition cardA : Flashcard := mkCard "a" "front a" "back a" false.
Definition cardB : Flashcard := mkCard "b" "front b" "back b" false.

(** The render in which the second card of the deck is on screen, revealed,
    with the first card already in the review queue. *)
Definition lastOfPass : State :=
  mkState 1 true [cardA; cardB] [cardA] [] None.

(** The render of a one-card pass with nothing deferred yet. *)
Definition singleCard : State :=
  mkState 0 true [cardA] [] [] None.

(** A render with nothing left to study. *)
Definition nothingToStudy : State :=
  mkState 0 false [] [] [] None.

Definition user : string := "user-1".

(** A signed-in user whose progress row is [rows]. *)
Definition backendWith (rows : list UserProgress) : Backend :=
  mkBackend (Some user) [] rows false None.

(** The progress record of the streak scenarios: streak 3, last studied on
    2024-01-10 at 09:00 UTC. *)
Definition threeDays (longest : Z) : UserProgress :=
  mkUserProgress user 0 0 3 longest (Some (utc 2024 1 10 9)) 0 0.

End Scenario.

(* ================================================================== *)
(** ** Invariants of the study session *)

Module StudyModeProps.
Import StudyMode.

(** The predicates used to state and prove the properties of the session. *)

(** Actions that leave the queues, the cursor and the callback log alone:
    flipping and timer bookkeeping. *)
Definition benign (a : Action) : bool :=
  match a with
  | SetIsFlipped _ | SetAutoFlipTimer _ | ClearTimeout _ | SetTimeout _ _ => true
  | _ => false
  end.

(** Timer bookkeeping alone. *)
Definition bookkeeping (a : Action) : bool :=
  match a with
  | SetAutoFlipTimer _ | ClearTimeout _ | SetTimeout _ _ => true
  | _ => false
  end.

(** The handler an event runs; the passing of time runs none (its timer
    callbacks are benign). *)
Definition handlerOf (cards : list Flashcard) (e : Event) : State -> list Action :=
  match e with
  | ClickFlip => handleCardFlip
  | ClickKnown => handleKnown cards
  | ClickReview => handleReview cards
  | ClickRestart => handleRestart cards
  | Elapse _ => fun _ => []
  end.

(** A property of the cells that flipping and timer bookkeeping preserve. *)
Definition stable (I : State -> Prop) : Prop :=
  forall s a, benign a = true -> I s -> I (applyUpdate s a).

(** The cursor points into the study queue, unless that queue is empty;
    this holds along every run in which the [cards] prop keeps its value. *)
Definition cursorInRange (s : State) : Prop :=
  studyCards s = [] \/ currentIndex s < List.length (studyCards s).

(** The step leaves the [cards] prop as it is. *)
Definition keepsProp (st : Step) : bool :=
  match st with
  | Fires _ => true
  | NewCards _ => false
  end.

(** Every card of the study queue and of the review queue satisfies [P]. *)
Definition queuesSatisfy (P : Flashcard -> Prop) (s : State) : Prop :=
  Forall P (studyCards s) /\ Forall P (reviewQueue s).

Definition isMastered (c : Flashcard) : Prop := mastered c = true.

(** [o] stands for [card] in an emitted list: the same id, and mastered if
    [card] was. *)
Definition keeps (card o : Flashcard) : Prop :=
  id o = id card /\ (mastered card = true -> mastered o = true).

(** Some completed card carries the id of [c]. *)
Definition resolved (c : Flashcard) (completed : list Flashcard) : Prop :=
  exists k, In k completed /\ id k = id c.

(** The invariant of a session over the deck [cards]: the completed cards
    are all mastered, they include the cards of the deck that were mastered
    to begin with, and the queued cards are cards of the deck as they came
    (the handlers never write to a queued card). *)
Definition masteryKept (cards : list Flashcard) (s : State) : Prop :=
  Forall isMastered (completedCards s) /\
  incl (filter (fun card => mastered card) cards) (completedCards s) /\
  queuesSatisfy (fun c => In c cards) s.

(** What is emitted on completion keeps the deck, card by card. *)
Definition keepsDeck (cards out : list Flashcard) : Prop :=
  Forall2 keeps cards out.

(** Once a card with the id of [c] is among the completed cards, it stays
    there until a restart, and every list emitted meanwhile has the cards of
    that id mastered. *)
Definition resolvedKept (c : Flashcard) (s : State) : Prop :=
  Forall isMastered (completedCards s) /\ resolved c (completedCards s).

Definition idMastered (c : Flashcard) (out : list Flashcard) : Prop :=
  Forall (fun o => id o = id c -> mastered o = true) out.

(** At most one timeout is pending; it is the one whose handle is in the
    [autoFlipTimer] cell, and the card is face down while it is pending. *)
Definition timerTracked (w : World) : Prop :=
  match timers w with
  | [] => True
  | [(t, _)] => autoFlipTimer (view w) = Some t /\ isFlipped (view w) = false
  | _ => False
  end.

(** The auto-flip effect has run for the dependencies on screen. *)
Definition settled (w : World) : Prop :=
  deps (effectRender w) = deps (view w).

(** Actions of the handlers that change the card: no timer call, and the
    card is only ever turned face down. *)
Definition quiet (a : Action) : bool :=
  match a with
  | ClearTimeout _ | SetTimeout _ _ | SetAutoFlipTimer _ => false
  | SetIsFlipped b => negb b
  | _ => true
  end.

(** The four cells the handlers decide on: the cursor, the two queues and
    the completed cards. *)
Definition queues (s : State)
  : nat * list Flashcard * list Flashcard * list Flashcard :=
  (currentIndex s, studyCards s, reviewQueue s, completedCards s).

(** An answer to a card: "I know this" or "Review again". *)
Definition isAnswer (e : Event) : bool :=
  match e with
  | ClickKnown | ClickReview => true
  | _ => false
  end.

(** The session in which every card is revealed and known, [n] times. *)
Fixpoint knowAll (n : nat) : list Event :=
  match n with
  | O => []
  | S n' => ClickFlip :: ClickKnown :: knowAll n'
  end.

(** The ids the learner has declared known since the last restart: what an
    event adds to the ids [known] so far, given the world it happens in. *)
Definition noteKnown (w : World) (e : Event) (known : list string) : list string :=
  match e with
  | ClickKnown =>
      match currentCard (view w) with
      | Some current => id current :: known
      | None => known
      end
  | ClickRestart => []
  | _ => known
  end.

Fixpoint knownIds (cards : list Flashcard) (w : World) (evs : list Event)
  (known : list string) : list string :=
  match evs with
  | [] => known
  | e :: rest => knownIds cards (dispatch cards w e) rest (noteKnown w e known)
  end.

(** The deck with the cards of the known ids marked mastered. *)
Definition answerSheet (known : list string) (cards : list Flashcard)
  : list Flashcard :=
  map (fun card =>
         if existsb (String.eqb (id card)) known then markMastered card
         else card)
      cards.

(** Twice the number of answers a pass and the passes after it can still
    take: [L * (L + 1) - 2 * cursor] for a study queue of [L] cards. *)
Definition potential (s : State) : nat :=
  List.length (studyCards s) * (List.length (studyCards s) + 1)
  - 2 * currentIndex s.

(** The cursor is in the study queue and no more cards are deferred than
    the pass has shown. *)
Definition passShape (s : State) : Prop :=
  List.length (reviewQueue s) <= currentIndex s /\
  currentIndex s < List.length (studyCards s).

(** The state of the all-known session after [k] rounds: the cursor at
    [k], the study queue untouched, nothing deferred, the first [k] cards
    completed as mastered copies, nothing reported yet. *)
Definition knownSoFar (cards : list Flashcard) (k : nat) (w : World) : Prop :=
  queues (view w) =
    (k, filter (fun card => negb (mastered card)) cards, [],
     filter (fun card => mastered card) cards
     ++ map markMastered
          (firstn k (filter (fun card => negb (mastered card)) cards))) /\
  completions w = [].

(** How the completed cards relate to the ids known so far: every completed
    card is a mastered card of the deck or the mastered copy of a deck card
    whose id is known, and every deck card whose id is known has its
    mastered copy among the completed cards. *)
Definition tally (cards : list Flashcard) (known : list string) (s : State) : Prop :=
  queuesSatisfy (fun c => In c cards) s /\
  (forall k, In k (completedCards s) ->
     exists c, In c cards /\
       ((k = c /\ mastered c = true) \/
        (k = markMastered c /\ In (id c) known))) /\
  (forall c, In c cards -> In (id c) known ->
     In (markMastered c) (completedCards s)).

End StudyModeProps.

(* ================================================================== *)
(** ** The server routes for progress (Hono app over the key-value store) *)

Module Server.
Import Js.

Local Open Scope Z_scope.

(** Interface [UserProgress] of the server. *)
Record UserProgress : Type := mkProgress {
  user_id : string;
  total_cards : Z;
  mastered_cards : Z;
  current_streak : Z;
  longest_streak : Z;
  last_study_date : option Z
}.

(** Interface [Flashcard] of the server. *)
Record Flashcard : Type := mkFlashcard {
  card_id : string;
  front : string;
  back : string;
  mastered : bool;
  card_deck_id : string;
  card_created_at : option Z
}.

(** Interface [Deck] of the server. *)
Record Deck : Type := mkDeck {
  deck_id : string;
  title : string;
  description : string;
  deck_user_id : string;
  created_at : option Z;
  updated_at : option Z
}.

(** [c.json(body)] and [c.json({ error }, status)]. *)
Inductive Response (A : Type) : Type :=
| Json (body : A)
| JsonError (message : string) (status : Z).

Arguments Json {A} body.
Arguments JsonError {A} message status.

(** [s.split(' ')]: the pieces between single spaces. *)
Fixpoint splitSpace (s : string) : list string :=
  match s with
  | EmptyString => [EmptyString]
  | String c rest =>
      if Ascii.eqb c " "%char then EmptyString :: splitSpace rest
      else
        match splitSpace rest with
        | piece :: pieces => String c piece :: pieces
        | [] => [String c EmptyString]
        end
  end.

(** [c.req.header('Authorization')?.split(' ')[1]], with the [!accessToken]
    test folded in: an absent or empty second piece is no token. *)
Definition accessToken (authorization : option string) : option string :=
  match authorization with
  | Some header => orNull (nth_error (splitSpace header) 1)
  | None => None
  end.

(** [requireAuth].  [getUser] stands for [supabase.auth.getUser]: the id of
    the user the token belongs to, or [None] when the call reports an error
    or no user.  [next] is the route, run with [userId] set. *)
Definition requireAuth {A : Type} (getUser : string -> option string)
  (authorization : option string) (next : string -> Response A) : Response A :=
  match accessToken authorization with
  | None => JsonError "Unauthorized" 401
  | Some token =>
      match orNull (getUser token) with
      | None => JsonError "Unauthorized" 401
      | Some userId => next userId
      end
  end.

(** The record both progress routes fall back to. *)
Definition initialProgress (userId : string) : UserProgress :=
  mkProgress userId 0 0 0 0 None.

(** The key [`user_progress:${userId}`]. *)
Definition progressKey (userId : string) : string :=
  String.append "user_progress:" userId.

(** The body of POST /progress/study-session between [kv.get] and [kv.set]:
    the progress record after the streak update. *)
Definition recordStudySession (tz : Z) (stored : option UserProgress)
  (userId : string) (now : Z) : UserProgress :=
  let progress :=
    match stored with
    | Some p => p
    | None => initialProgress userId
    end in
  let today := toDateString tz now in
  let current :=
    match last_study_date progress with
    | Some last =>
        let lastStudyDate := toDateString tz last in
        if lastStudyDate =? today then
          (* Already studied today, no streak change *)
          current_streak progress
        else if lastStudyDate =? toDateString tz (now - DAY_MS) then
          (* Studied yesterday, continue streak *)
          current_streak progress + 1
        else
          (* New streak starts *)
          1
    | None => 1
    end in
  (* Update longest streak *)
  let longest :=
    if longest_streak progress <? current then current
    else longest_streak progress in
  mkProgress (user_id progress) (total_cards progress) (mastered_cards progress)
             current longest (Some now).

(** POST /progress/study-session after [requireAuth].  The key-value store
    is not part of the sources; the route is a function of what its calls
    answer: [body] is [await c.req.json()], [kvGet] is what
    [kv.get(`user_progress:${userId}`)] returns or throws, [kvSetThrows]
    says that [kv.set] throws.  The result is the list of writes made and
    the response; every exception ends in the [catch] clause. *)
Definition studySessionRoute (tz now : Z)
  (body : completion (string * Z))
  (kvGet : completion (option UserProgress)) (kvSetThrows : bool)
  (userId : string)
  : list (string * UserProgress) * Response UserProgress :=
  match body, kvGet with
  | Normal _, Normal stored =>
      let progress := recordStudySession tz stored userId now in
      if kvSetThrows then
        ([], JsonError "Failed to update study session" 500)
      else ([(progressKey userId, progress)], Json progress)
  | _, _ => ([], JsonError "Failed to update study session" 500)
  end.

(** [cards.filter(card => card.mastered).length]. *)
Definition masteredCount (cards : list Flashcard) : Z :=
  Z.of_nat (List.length (filter (fun card => mastered card) cards)).

(** The loop of GET /progress over the decks: the running totals, or the
    exception of the first [kv.getByPrefix] that throws. *)
Fixpoint countCards (cardsOf : string -> completion (list Flashcard))
  (decks : list Deck) (totalCards masteredCards : Z) : completion (Z * Z) :=
  match decks with
  | [] => Normal (totalCards, masteredCards)
  | deck :: rest =>
      match cardsOf (deck_id deck) with
      | Normal cards =>
          countCards cardsOf rest
            (totalCards + Z.of_nat (List.length cards))
            (masteredCards + masteredCount cards)
      | Throw message => Throw message
      end
  end.

(** GET /progress after [requireAuth], as a function of what the store
    answers: [kvGet] for the progress record, [decks] for
    [kv.getByPrefix(`deck:${userId}:`)], [cardsOf deckId] for
    [kv.getByPrefix(`card:${deckId}:`)]. *)
Definition progressRoute
  (kvGet : completion (option UserProgress))
  (decks : completion (list Deck))
  (cardsOf : string -> completion (list Flashcard))
  (kvSetThrows : bool) (userId : string)
  : list (string * UserProgress) * Response UserProgress :=
  let failed := JsonError "Failed to fetch progress" 500 in
  match kvGet with
  | Throw _ => ([], failed)
  | Normal stored =>
      let created :=
        match stored with
        | Some _ => []
        | None => [(progressKey userId, initialProgress userId)]
        end in
      let progress :=
        match stored with
        | Some p => p
        | None => initialProgress userId
        end in
      match stored, kvSetThrows with
      | None, true => ([], failed)
      | _, _ =>
          match decks with
          | Throw _ => (created, failed)
          | Normal ds =>
              (* Calculate current stats from decks *)
              match countCards cardsOf ds 0 0 with
              | Throw _ => (created, failed)
              | Normal (totalCards, masteredCards) =>
                  (* Update progress with current stats *)
                  let updatedProgress :=
                    mkProgress (user_id progress) totalCards masteredCards
                               (current_streak progress)
                               (longest_streak progress)
                               (last_study_date progress) in
                  if kvSetThrows then (created, failed)
                  else (created ++ [(progressKey userId, updatedProgress)],
                        Json updatedProgress)
              end
          end
      end
  end.

(** [kv.get(...) || { ...defaults }]: the record a progress route starts
    from. *)
Definition previous (stored : option UserProgress) (userId : string) : UserProgress :=
  match stored with
  | Some p => p
  | None => initialProgress userId
  end.

(** The header [apiCall] sends: [`Bearer ${accessToken}`]. *)
Definition bearer (token : string) : string :=
  String.append "Bearer " token.

(** The string has no space. *)
Fixpoint noSpace (s : string) : bool :=
  match s with
  | EmptyString => true
  | String c rest => negb (Ascii.eqb c " "%char) && noSpace rest
  end.

(** The streak pair of a client-side row, for comparing the two
    implementations. *)
Definition ofClientRow (r : Operations.UserProgress) : UserProgress :=
  mkProgress (Operations.user_id r) (Operations.total_cards r)
             (Operations.mastered_cards r) (Operations.current_streak r)
             (Operations.longest_streak r) (Operations.last_study_date r).

End Server.

(* ================================================================== *)
(** ** App.tsx and operations.ts: saving a deck after a study session *)

Module App.
Import Js.

Local Open Scope Z_scope.

(** A row of [cardsData], the object [addCards] inserts. *)
Record CardInsert : Type := mkCardInsert {
  ins_deck_id : string;
  ins_front : string;
  ins_back : string;
  ins_mastered : bool
}.

(** The requests the modelled functions send to Supabase:
    - [UpdateDeck]: [.from('decks').update({ title, description })
      .eq('id', deckId).eq('user_id', userId)];
    - [DeleteCards]: [.from('cards').delete().eq('deck_id', deckId)];
    - [InsertCards]: [.from('cards').insert(cardsData).select()];
    - [UpdateDeckStats]: [.from('decks').update({ card_count,
      mastered_count, last_studied }).eq('id', deckId).eq('user_id', userId)];
    - [SyncUserProgress]: the call of [syncUserProgress()], taken as one
      step here (it is [Operations.syncUserProgress]). *)
Inductive Request : Type :=
| UpdateDeck (deckId userId title description : string)
| DeleteCards (deckId : string)
| InsertCards (rows : list CardInsert)
| UpdateDeckStats (deckId userId : string) (cardCount masteredCount lastStudied : Z)
| SyncUserProgress.

(** What the outside answers: the signed-in user, the clock, and the
    [error.message] Supabase answers a request with, if it rejects it. *)
Record Env : Type := mkEnv {
  signedIn : option string;
  now : Z;
  rejects : Request -> option string
}.

(** A client function: given the answers, the requests it sent, in order,
    and how it completed. *)
Definition Script (A : Type) : Type := Env -> list Request * completion A.

Definition ret {A : Type} (a : A) : Script A :=
  fun _ => ([], Normal a).

Definition throw {A : Type} (message : string) : Script A :=
  fun _ => ([], Throw message).

Definition bind {A B : Type} (m : Script A) (k : A -> Script B) : Script B :=
  fun env =>
    match m env with
    | (sent, Normal a) =>
        let '(sent', result) := k a env in (sent ++ sent', result)
    | (sent, Throw message) => (sent, Throw message)
    end.

Local Notation "x <- m ;; k" := (bind m (fun x => k))
  (at level 61, m at next level, right associativity).
Local Notation "m ;;; k" := (bind m (fun _ => k))
  (at level 61, right associativity).

(** [const { error } = await request; if (error) throw new Error(error.message)]. *)
Definition send (r : Request) : Script unit :=
  fun env =>
    ([r], match rejects env r with
          | Some message => Throw message
          | None => Normal tt
          end).

(** [await request], the answer not looked at. *)
Definition sendIgnoring (r : Request) : Script unit :=
  fun _ => ([r], Normal tt).

(** [const userId = await getCurrentUserId();
     if (!userId) throw new Error('Not authenticated')]. *)
Definition requireUser : Script string :=
  fun env =>
    match orNull (signedIn env) with
    | Some userId => ([], Normal userId)
    | None => ([], Throw "Not authenticated")
    end.

(** [updateDeck(deckId, { title, description })]; the row it returns is not
    used by its caller. *)
Definition updateDeck (deckId title description : string) : Script unit :=
  userId <- requireUser ;;
  send (UpdateDeck deckId userId title description).

(** [cards.map(card => ({ deck_id: deckId, front: card.front,
    back: card.back, mastered: false }))]. *)
Definition cardsData (deckId : string) (cards : list (string * string))
  : list CardInsert :=
  map (fun card => mkCardInsert deckId (fst card) (snd card) false) cards.

(** [addCards(deckId, cards)]; the result is the rows sent, standing for
    the rows the insert returns. *)
Definition addCards (deckId : string) (cards : list (string * string))
  : Script (list CardInsert) :=
  match cards with
  | [] => ret []
  | _ :: _ =>
      send (InsertCards (cardsData deckId cards)) ;;;
      ret (cardsData deckId cards)
  end.

(** [replaceCards(deckId, cards)]. *)
Definition replaceCards (deckId : string) (cards : list (string * string))
  : Script (list CardInsert) :=
  (* Delete existing cards *)
  sendIgnoring (DeleteCards deckId) ;;;
  (* Add new cards *)
  addCards deckId cards.

(** [updateDeckStats(deckId, cardCount, masteredCount)]. *)
Definition updateDeckStats (deckId : string) (cardCount masteredCount : Z)
  : Script unit :=
  userId <- requireUser ;;
  fun env => send (UpdateDeckStats deckId userId cardCount masteredCount (now env)) env.

(** Interface [Deck] of the app. *)
Record Deck : Type := mkDeck {
  id : string;
  title : string;
  description : string;
  cards : list StudyMode.Flashcard;
  cardCount : Z;
  masteredCount : Z;
  lastStudied : string
}.

Inductive SyncStatus : Type := Idle | Syncing | SyncError | Success.

Inductive Screen : Type :=
| AuthScreen | Onboarding | Dashboard | CreateDeck | DeckView | StudyModeView
| ProgressView | Settings.

(** The fields of [AppState] the two handlers read or write. *)
Record AppState : Type := mkAppState {
  currentScreen : Screen;
  selectedDeckId : option string;
  decks : list Deck;
  syncStatus : SyncStatus
}.

Definition withStatus (st : AppState) (status : SyncStatus) : AppState :=
  mkAppState (currentScreen st) (selectedDeckId st) (decks st) status.

(** [updatedDeck.cards.length] and
    [updatedDeck.cards.filter(card => card.mastered).length]. *)
Definition countOf (cs : list StudyMode.Flashcard) : Z :=
  Z.of_nat (List.length cs).

Definition masteredOf (cs : list StudyMode.Flashcard) : Z :=
  Z.of_nat (List.length (filter (fun card => StudyMode.mastered card) cs)).

(** The [try] block of [handleUpdateDeck] up to the stats update. *)
Definition saveDeck (updatedDeck : Deck) : Script unit :=
  (* Update deck in Supabase *)
  updateDeck (id updatedDeck) (title updatedDeck) (description updatedDeck) ;;;
  (* Update cards in Supabase *)
  (match cards updatedDeck with
   | [] => ret tt
   | _ :: _ =>
       replaceCards (id updatedDeck)
         (map (fun card => (StudyMode.front card, StudyMode.back card))
              (cards updatedDeck)) ;;;
       ret tt
   end) ;;;
  (* Update deck stats in Supabase *)
  updateDeckStats (id updatedDeck) (countOf (cards updatedDeck))
                  (masteredOf (cards updatedDeck)).

(** The local decks after [handleUpdateDeck]. *)
Definition updatedDecks (st : AppState) (updatedDeck : Deck) : list Deck :=
  map (fun deck =>
         if String.eqb (id deck) (id updatedDeck) then
           mkDeck (id updatedDeck) (title updatedDeck) (description updatedDeck)
                  (cards updatedDeck) (countOf (cards updatedDeck))
                  (masteredOf (cards updatedDeck)) "Just now"
         else deck)
      (decks st).

(** [handleUpdateDeck(updatedDeck)]: the requests sent and the state left.
    Every exception ends in the [catch] clause, which sets the sync status
    to ["error"]. *)
Definition handleUpdateDeck (st : AppState) (updatedDeck : Deck) (env : Env)
  : list Request * AppState :=
  match saveDeck updatedDeck env with
  | (sent, Throw _) => (sent, withStatus st SyncError)
  | (sent, Normal _) =>
      let saved :=
        mkAppState (currentScreen st) (selectedDeckId st)
                   (updatedDecks st updatedDeck) Success in
      (* Sync user progress *)
      match send SyncUserProgress env with
      | (sent', Throw _) => (sent ++ sent', withStatus saved SyncError)
      | (sent', Normal _) => (sent ++ sent', saved)
      end
  end.

(** [handleCompleteStudy(updatedCards)], the [onComplete] prop of the study
    screen. *)
Definition handleCompleteStudy (st : AppState)
  (updatedCards : list StudyMode.Flashcard) (env : Env)
  : list Request * AppState :=
  match orNull (selectedDeckId st) with
  | None => ([], st)
  | Some selected =>
      let '(sent, st') :=
        match find (fun deck => String.eqb (id deck) selected) (decks st) with
        | Some updatedDeck =>
            handleUpdateDeck st
              (mkDeck (id updatedDeck) (title updatedDeck)
                      (description updatedDeck) updatedCards
                      (cardCount updatedDeck) (masteredCount updatedDeck)
                      (lastStudied updatedDeck))
              env
        | None => ([], st)
        end in
      (sent, mkAppState DeckView (selectedDeckId st') (decks st') (syncStatus st'))
  end.

(** The requests [saveDeck] can send, in order, for a signed-in user. *)
Definition saveRequests (userId : string) (d : Deck) (at_ : Z) : list Request :=
  UpdateDeck (id d) userId (title d) (description d) ::
  match cards d with
  | [] => []
  | _ :: _ =>
      [DeleteCards (id d);
       InsertCards
         (cardsData (id d)
            (map (fun card => (StudyMode.front card, StudyMode.back card))
                 (cards d)))]
  end ++
  [UpdateDeckStats (id d) userId (countOf (cards d)) (masteredOf (cards d)) at_].

(** The rows of all card inserts among the requests. *)
Definition insertedRows (sent : list Request) : list CardInsert :=
  flat_map (fun r => match r with InsertCards rows => rows | _ => [] end) sent.

End App.

(* ================================================================== *)
(** ** Properties of the progress operations *)

Module OperationsFacts.
Import Js Operations Scenario.

Local Open Scope Z_scope.

Lemma or0_id (x : Z) : or0 x = x.
Proof.
  unfold or0. destruct (Z.eqb_spec x 0); congruence.
Qed.

(** The day before: subtracting [DAY_MS] moves to the previous calendar
    day. *)
Lemma toDateString_yesterday (tz t : Z) :
  toDateString tz (t - DAY_MS) = toDateString tz t - 1.
Proof.
  unfold toDateString.
  replace (t - DAY_MS + tz) with (t + tz + (-1) * DAY_MS) by ring.
  rewrite Z.div_add by (unfold DAY_MS; lia). ring.
Qed.

Lemma days_from_civil_epoch : days_from_civil 1970 1 1 = 0.
Proof. reflexivity. Qed.

Lemma days_from_civil_2024 : days_from_civil 2024 1 10 = 19732.
Proof. reflexivity. Qed.

(** The streak the block computes, by the number of calendar days between
    the last study day and today. *)
Lemma streakAfterStudy_current (tz : Z) (p : UserProgress) (last now : Z) :
  last_study_date p = Some last ->
  let gap := toDateString tz now - toDateString tz last in
  fst (streakAfterStudy tz (Some p) now) =
    if gap =? 0 then current_streak p
    else if gap =? 1 then current_streak p + 1
    else 1.
Proof.
  intros Hlast gap. unfold streakAfterStudy. rewrite Hlast.
  rewrite toDateString_yesterday. subst gap.
  destruct (Z.eqb_spec (toDateString tz last) (toDateString tz now)) as [E | E].
  - rewrite E, Z.sub_diag. reflexivity.
  - destruct (Z.eqb_spec (toDateString tz now - toDateString tz last) 0); [lia |].
    destruct (Z.eqb_spec (toDateString tz last) (toDateString tz now - 1)) as [Y | Y].
    + replace (toDateString tz now - toDateString tz last) with 1 by lia.
      cbn [fst Z.eqb]. now rewrite or0_id.
    + destruct (Z.eqb_spec (toDateString tz now - toDateString tz last) 1); [lia |].
      reflexivity.
Qed.

Lemma streakAfterStudy_absent (tz : Z) (cp : option UserProgress) (now : Z) :
  match cp with Some p => last_study_date p = None | None => True end ->
  fst (streakAfterStudy tz cp now) = 1.
Proof.
  destruct cp as [p |]; cbn; [intros -> |]; reflexivity.
Qed.

(** The longest streak is raised only on the path that increments the
    streak; on the other paths it is the stored value. *)
Lemma streakAfterStudy_longest (tz : Z) (cp : option UserProgress) (now : Z) :
  let stored := match cp with Some p => longest_streak p | None => 0 end in
  snd (streakAfterStudy tz cp now) = stored \/
  snd (streakAfterStudy tz cp now) = Z.max stored (fst (streakAfterStudy tz cp now)).
Proof.
  destruct cp as [p |]; cbn; [| now left].
  unfold streakAfterStudy. rewrite !or0_id.
  destruct (last_study_date p) as [last |]; [| now left].
  destruct (toDateString tz last =? toDateString tz now); [now left |].
  destruct (toDateString tz last =? toDateString tz (now - DAY_MS)); [| now left].
  right. cbn [fst snd].
  destruct (Z.ltb_spec (longest_streak p) (current_streak p + 1)); lia.
Qed.

(** What [updateStudyProgress] returns for a signed-in user when the upsert
    goes through: the stored row with the computed streak written in. *)
Lemma updateStudyProgress_returns (tz : Z) (b : Backend) (now m : Z) (userId : string) :
  getCurrentUserId b = Some userId ->
  upsert_error b = None ->
  exists row,
    snd (updateStudyProgress tz b now m) = Normal row /\
    current_streak row = fst (streakAfterStudy tz (selectProgress b userId) now) /\
    longest_streak row = snd (streakAfterStudy tz (selectProgress b userId) now) /\
    last_study_date row = Some now.
Proof.
  intros Hauth Herr. unfold updateStudyProgress, upsertProgress.
  rewrite Hauth, Herr. eexists; split; [reflexivity |].
  unfold studyPayload.
  destruct (streakAfterStudy tz (selectProgress b userId) now) as [n l].
  cbn [p_user_id].
  destruct (selectProgress b userId); cbn; auto.
Qed.

(** The documented streak scenario, for any stored longest streak, with the
    calendar days taken in UTC: from streak 3 last studied on 2024-01-10, a session on 2024-01-11 gives 4, a
    second one the same day keeps 4, and the next one on 2024-01-14 gives
    1. *)
Lemma streak_scenario (longest m : Z) :
  let b0 := backendWith [threeDays longest] in
  let r1 := updateStudyProgress 0 b0 (utc 2024 1 11 8) m in
  let r2 := updateStudyProgress 0 (fst r1) (utc 2024 1 11 20) m in
  let r3 := updateStudyProgress 0 (fst r2) (utc 2024 1 14 7) m in
  (exists row, snd r1 = Normal row /\ current_streak row = 4 /\
               longest_streak row = Z.max longest 4) /\
  (exists row, snd r2 = Normal row /\ current_streak row = 4) /\
  (exists row, snd r3 = Normal row /\ current_streak row = 1).
Proof.
  cbv zeta. repeat split.
  - eexists; split; [reflexivity |]. split; [reflexivity |].
    cbn. rewrite or0_id.
    destruct (Z.ltb_spec longest 4); lia.
  - eexists; split; reflexivity.
  - eexists; split; reflexivity.
Qed.

(** After an upsert the row of the payload's user is the merged row. *)
Lemma find_replaceRow (row : UserProgress) (rows : list UserProgress) :
  find (fun r => String.eqb (user_id r) (user_id row)) (replaceRow row rows)
  = Some row.
Proof.
  induction rows as [| r rest IH]; cbn.
  - now rewrite String.eqb_refl.
  - destruct (String.eqb (user_id r) (user_id row)) eqn:E; cbn.
    + now rewrite String.eqb_refl.
    + now rewrite E.
Qed.

Lemma mergeRow_user_id (b : Backend) (p : ProgressPayload) (now : Z) :
  user_id (mergeRow (selectProgress b (p_user_id p)) p now) = p_user_id p.
Proof.
  unfold selectProgress.
  destruct (find _ (user_progress b)) as [r |] eqn:F; cbn; [| reflexivity].
  apply find_some in F. now apply String.eqb_eq.
Qed.

Lemma upsertProgress_stored (b : Backend) (p : ProgressPayload) (now : Z) (row : UserProgress) :
  snd (upsertProgress b p now) = Normal row ->
  selectProgress (fst (upsertProgress b p now)) (p_user_id p) = Some row.
Proof.
  unfold upsertProgress. destruct (upsert_error b); [discriminate |].
  cbn. intros H. injection H as <-.
  pose proof (mergeRow_user_id b p now) as U.
  set (row := mergeRow (selectProgress b (p_user_id p)) p now) in *.
  unfold selectProgress. cbn. rewrite <- U. apply find_replaceRow.
Qed.

(** C2 (the code departs from the specification).
    The very first study session of
    a user, whose progress record is the lazily created one (all counters
    zero, no last study date), is recorded with [current_streak = 1] while
    [longest_streak] stays [0]: the longest streak is not
    [max(prev.longest_streak, current_streak)] in every case, because the
    source raises it only on the path that increments the streak. *)
Theorem C2_first_study_leaves_longest_streak_at_zero (tz now m created : Z) :
  let prev := freshProgress user created in
  exists row,
    snd (updateStudyProgress tz (backendWith [prev]) now m) = Normal row /\
    current_streak row = 1 /\
    last_study_date row = Some now /\
    longest_streak row = 0 /\
    longest_streak row <> Z.max (longest_streak prev) (current_streak row).
Proof.
  cbv zeta. eexists. split; [reflexivity |]. cbn. repeat split; lia.
Qed.

(** C3 (the code departs from the specification).
    For a user with no progress row
    yet, the update stores [current_streak = 1] next to
    [longest_streak = 0]; and when the next session comes three days later
    (the streak is reset by the gap) the stored record still has
    [longest_streak < current_streak]. *)
Theorem C3_current_streak_exceeds_longest_streak (tz now m : Z) :
  let first := updateStudyProgress tz (backendWith []) now m in
  let second := updateStudyProgress tz (fst first) (now + 3 * DAY_MS) m in
  (exists row, snd first = Normal row /\
               current_streak row = 1 /\ longest_streak row = 0 /\
               longest_streak row < current_streak row) /\
  (exists row, snd second = Normal row /\
               longest_streak row < current_streak row).
Proof.
  cbv zeta. split.
  - eexists. split; [reflexivity |]. cbn. repeat split; lia.
  - destruct (updateStudyProgress_returns tz
                (fst (updateStudyProgress tz (backendWith []) now m))
                (now + 3 * DAY_MS) m (userId := user) eq_refl eq_refl)
      as (row & Hrow & Hcur & Hlong & _).
    exists row. split; [exact Hrow |].
    rewrite Hcur, Hlong. cbn [updateStudyProgress backendWith fst].
    unfold streakAfterStudy. cbn -[toDateString Z.mul Z.add Z.sub].
    rewrite toDateString_yesterday.
    assert (D : toDateString tz (now + 3 * DAY_MS) = toDateString tz now + 3).
    { unfold toDateString.
      replace (now + 3 * DAY_MS + tz) with (now + tz + 3 * DAY_MS) by ring.
      rewrite Z.div_add by (unfold DAY_MS; lia). reflexivity. }
    rewrite D.
    destruct (Z.eqb_spec (toDateString tz now) (toDateString tz now + 3)); [lia |].
    destruct (Z.eqb_spec (toDateString tz now) (toDateString tz now + 3 - 1)); [lia |].
    cbn. lia.
Qed.

(** C5, as specified, fails: a previous record last studied on 2024-01-12 and
    a session on 2024-01-11 (the stored day is after the study day) is not
    refused; the call returns normally with the streak reset to 1. *)
Lemma C5_backdated_study_is_not_refused :
  let prev := mkUserProgress user 0 0 3 3 (Some (utc 2024 1 12 9)) 0 0 in
  let r := snd (updateStudyProgress 0 (backendWith [prev]) (utc 2024 1 11 9) 0) in
  toDateString 0 (utc 2024 1 11 9) < toDateString 0 (utc 2024 1 12 9) /\
  threw r = false /\
  r <> Throw "AmbiguousStreakInput" /\
  exists row, r = Normal row /\ current_streak row = 1.
Proof.
  cbv zeta. split; [reflexivity |]. split; [reflexivity |].
  split; [discriminate |]. eexists. split; reflexivity.
Qed.

(** C5 (amended).  The streak update has no condition for a backdated
    study: for a signed-in user whose upsert goes through it always returns
    a record, and when the stored last study day is strictly after the study
    day that record has [current_streak = 1] and the stored
    [longest_streak].  (The call throws only for a missing user or an upsert
    error.) *)
Theorem C5_streak_update_always_returns
  (tz : Z) (b : Backend) (now m : Z) (userId : string)
  (Hauth : getCurrentUserId b = Some userId)
  (Hupsert : upsert_error b = None) :
  exists row,
    snd (updateStudyProgress tz b now m) = Normal row /\
    forall p last,
      selectProgress b userId = Some p ->
      last_study_date p = Some last ->
      toDateString tz now < toDateString tz last ->
      current_streak row = 1 /\ longest_streak row = longest_streak p.
Proof.
  destruct (updateStudyProgress_returns tz b now m Hauth Hupsert)
    as (row & Hrow & Hcur & Hlong & _).
  exists row. split; [exact Hrow |].
  intros p last Hp Hlast Hlt. rewrite Hcur, Hlong, Hp.
  unfold streakAfterStudy. rewrite Hlast, toDateString_yesterday, or0_id.
  destruct (Z.eqb_spec (toDateString tz last) (toDateString tz now)); [lia |].
  destruct (Z.eqb_spec (toDateString tz last) (toDateString tz now - 1)); [lia |].
  split; reflexivity.
Qed.

Lemma C5_streak_update_always_returns_witness :
  exists row,
    snd (updateStudyProgress 0
           (backendWith [mkUserProgress user 0 0 3 3 (Some (utc 2024 1 12 9)) 0 0])
           (utc 2024 1 11 9) 0) = Normal row /\
    forall p last,
      selectProgress
        (backendWith [mkUserProgress user 0 0 3 3 (Some (utc 2024 1 12 9)) 0 0])
        user = Some p ->
      last_study_date p = Some last ->
      toDateString 0 (utc 2024 1 11 9) < toDateString 0 last ->
      current_streak row = 1 /\ longest_streak row = longest_streak p.
Proof.
  apply (@C5_streak_update_always_returns 0
           (backendWith [mkUserProgress user 0 0 3 3 (Some (utc 2024 1 12 9)) 0 0])
           (utc 2024 1 11 9) 0 user); reflexivity.
Defined.

(** The only ways [updateStudyProgress] throws. *)
Lemma updateStudyProgress_throws (tz : Z) (b : Backend) (now m : Z) (message : string) :
  snd (updateStudyProgress tz b now m) = Throw message ->
  (getCurrentUserId b = None /\ message = "Not authenticated"%string) \/
  upsert_error b = Some message.
Proof.
  unfold updateStudyProgress, upsertProgress.
  destruct (getCurrentUserId b); cbn.
  - destruct (upsert_error b); cbn; [| discriminate].
    intros H. injection H as ->. now right.
  - intros H. injection H as <-. now left.
Qed.

(** What [syncUserProgress] returns for a signed-in user when the upsert
    goes through: the sums over the user's decks, which are also what the
    stored row holds afterwards. *)
Lemma syncUserProgress_returns (b : Backend) (now : Z) (userId : string) :
  getCurrentUserId b = Some userId ->
  upsert_error b = None ->
  exists row,
    snd (syncUserProgress b now) = Normal row /\
    selectProgress (fst (syncUserProgress b now)) userId = Some row /\
    total_cards row = sumColumn card_count (selectDecks b userId) /\
    mastered_cards row = sumColumn mastered_count (selectDecks b userId).
Proof.
  intros Hauth Herr. unfold syncUserProgress. rewrite Hauth.
  set (p := mkPayload userId _ _ _ _ _ _).
  assert (R : exists row, snd (upsertProgress b p now) = Normal row /\
                          total_cards row = sumColumn card_count (selectDecks b userId) /\
                          mastered_cards row = sumColumn mastered_count (selectDecks b userId)).
  { unfold upsertProgress. rewrite Herr. eexists. split; [reflexivity |].
    destruct (selectProgress b (p_user_id p)); cbn; auto. }
  destruct R as (row & Hrow & Ht & Hm). exists row.
  repeat split; auto.
  exact (upsertProgress_stored b p now Hrow).
Qed.

(** [syncUserProgress] writes to [user_progress] only. *)
Lemma syncUserProgress_frame (b : Backend) (now : Z) :
  let b' := fst (syncUserProgress b now) in
  auth_user b' = auth_user b /\ decks b' = decks b /\
  decks_unreachable b' = decks_unreachable b /\
  upsert_error b' = upsert_error b.
Proof.
  unfold syncUserProgress, upsertProgress.
  destruct (getCurrentUserId b); cbn; [| auto].
  destruct (upsert_error b) eqn:E; cbn; auto.
Qed.

(** C6.  Running [syncUserProgress] twice in a row, with the decks table as
    the first run left it (it does not write to it), returns the same
    [total_cards] and [mastered_cards], or fails the same way. *)
Theorem C6_syncUserProgress_idempotent (b : Backend) (t1 t2 : Z) :
  let first := syncUserProgress b t1 in
  let second := syncUserProgress (fst first) t2 in
  decks (fst first) = decks b /\
  aggregates (snd second) = aggregates (snd first).
Proof.
  cbv zeta.
  destruct (syncUserProgress_frame b t1) as (Ha & Hd & Hu & He).
  split; [exact Hd |].
  destruct (getCurrentUserId b) as [userId |] eqn:Hauth.
  - destruct (upsert_error b) as [message |] eqn:Herr.
    + unfold syncUserProgress, upsertProgress.
      rewrite Hauth, Herr. cbn. rewrite Hauth, Herr. reflexivity.
    + destruct (syncUserProgress_returns b t1 Hauth Herr)
        as (r1 & H1 & _ & T1 & M1).
      assert (Hauth' : getCurrentUserId (fst (syncUserProgress b t1)) = Some userId).
      { unfold getCurrentUserId in *. now rewrite Ha. }
      assert (Herr' : upsert_error (fst (syncUserProgress b t1)) = None).
      { now rewrite He. }
      destruct (syncUserProgress_returns _ t2 Hauth' Herr')
        as (r2 & H2 & _ & T2 & M2).
      rewrite H1, H2. cbn. rewrite T1, M1, T2, M2.
      unfold selectDecks. now rewrite Hu, Hd.
  - unfold syncUserProgress. rewrite Hauth. cbn. now rewrite Hauth.
Qed.

(** The stored row is stable as well: after the second run it holds the
    same two aggregates as after the first. *)
Lemma syncUserProgress_stored_stable (b : Backend) (t1 t2 : Z) (userId : string) :
  getCurrentUserId b = Some userId ->
  upsert_error b = None ->
  let first := syncUserProgress b t1 in
  let second := syncUserProgress (fst first) t2 in
  option_map (fun r => (total_cards r, mastered_cards r))
             (selectProgress (fst second) userId) =
  option_map (fun r => (total_cards r, mastered_cards r))
             (selectProgress (fst first) userId).
Proof.
  intros Hauth Herr. cbv zeta.
  destruct (syncUserProgress_frame b t1) as (Ha & Hd & Hu & He).
  destruct (syncUserProgress_returns b t1 Hauth Herr) as (r1 & _ & S1 & T1 & M1).
  assert (Hauth' : getCurrentUserId (fst (syncUserProgress b t1)) = Some userId).
  { unfold getCurrentUserId in *. now rewrite Ha. }
  assert (Herr' : upsert_error (fst (syncUserProgress b t1)) = None).
  { now rewrite He. }
  destruct (syncUserProgress_returns _ t2 Hauth' Herr') as (r2 & _ & S2 & T2 & M2).
  rewrite S1, S2. cbn. rewrite T1, M1, T2, M2.
  unfold selectDecks. now rewrite Hu, Hd.
Qed.

End OperationsFacts.

(* ================================================================== *)
(** ** Properties of the study session *)

Module StudyModeFacts.
Import Js StudyMode StudyModeProps Scenario.

Lemma commit_app (s : State) (xs ys : list Action) :
  commit s (xs ++ ys) = commit (commit s xs) ys.
Proof. apply fold_left_app. Qed.

Lemma emitted_app (xs ys : list Action) :
  emitted (xs ++ ys) = emitted xs ++ emitted ys.
Proof. unfold emitted. now rewrite flat_map_app. Qed.

Lemma view_perform (w : World) (a : Action) :
  view (perform w a) = applyUpdate (view w) a.
Proof. destruct a; reflexivity. Qed.

Lemma view_performAll (acts : list Action) (w : World) :
  view (performAll w acts) = commit (view w) acts.
Proof.
  revert w. induction acts as [| a acts IH]; intros w; cbn; [reflexivity |].
  unfold performAll in IH. now rewrite IH, view_perform.
Qed.

Lemma completions_performAll (acts : list Action) (w : World) :
  completions (performAll w acts) = rev (emitted acts) ++ completions w.
Proof.
  revert w. induction acts as [| a acts IH]; intros w; cbn; [reflexivity |].
  unfold performAll in IH. rewrite IH.
  destruct a; cbn; try reflexivity.
  now rewrite <- app_assoc.
Qed.

Lemma emitted_benign (acts : list Action) :
  forallb benign acts = true -> emitted acts = [].
Proof.
  induction acts as [| a acts IH]; cbn; [reflexivity |].
  intros H. apply andb_prop in H as [Ha Hs].
  destruct a; cbn in *; try discriminate; auto.
Qed.

Lemma stable_commit (I : State -> Prop) (acts : list Action) (s : State) :
  stable I -> forallb benign acts = true -> I s -> I (commit s acts).
Proof.
  intros HI. revert s. induction acts as [| a acts IH]; intros s; cbn; [auto |].
  intros H Hs. apply andb_prop in H as [Ha Hacts].
  apply IH; auto.
Qed.

Lemma bookkeeping_benign (acts : list Action) :
  forallb bookkeeping acts = true -> forallb benign acts = true.
Proof.
  induction acts as [| a acts IH]; cbn; [reflexivity |].
  intros H. apply andb_prop in H as [Ha Hs]. rewrite IH by assumption.
  destruct a; cbn in *; congruence.
Qed.

Lemma session_bookkeeping (acts : list Action) (s : State) :
  forallb bookkeeping acts = true -> session (commit s acts) = session s.
Proof.
  revert s. induction acts as [| a acts IH]; intros s; [reflexivity |].
  cbn [forallb]. intros H. apply andb_prop in H as [Ha Hs].
  change (commit s (a :: acts)) with (commit (applyUpdate s a) acts).
  rewrite IH by assumption.
  destruct a; try discriminate; reflexivity.
Qed.

Lemma autoFlipEffect_bookkeeping (s : State) (fresh : TimerId) :
  forallb bookkeeping (autoFlipEffect s fresh) = true.
Proof.
  unfold autoFlipEffect.
  destruct (autoFlipTimer s), (currentCard s), (isFlipped s); reflexivity.
Qed.

Lemma handleCardFlip_benign (s : State) :
  forallb benign (handleCardFlip s) = true.
Proof.
  unfold handleCardFlip. destruct (autoFlipTimer s); reflexivity.
Qed.

(** Re-rendering does timer bookkeeping only. *)
Lemma settle_shape (w : World) :
  exists acts,
    forallb bookkeeping acts = true /\
    view (settle w) = commit (view w) acts /\
    completions (settle w) = completions w.
Proof.
  unfold settle. destruct (depsEqb _ _).
  - exists []. auto.
  - set (cleanup := autoFlipCleanup (effectRender w)).
    set (w1 := performAll w cleanup).
    exists (cleanup ++ autoFlipEffect (view w) (nextTimer w1)).
    assert (Hc : forallb bookkeeping cleanup = true).
    { subst cleanup. unfold autoFlipCleanup.
      destruct (autoFlipTimer (effectRender w)); reflexivity. }
    repeat split.
    + rewrite forallb_app, Hc. apply autoFlipEffect_bookkeeping.
    + cbn. rewrite view_performAll. subst w1. rewrite view_performAll.
      now rewrite commit_app.
    + cbn. rewrite completions_performAll. subst w1.
      rewrite completions_performAll.
      rewrite !emitted_benign;
        auto using bookkeeping_benign, autoFlipEffect_bookkeeping.
Qed.

Lemma handle_shape (w : World) (h : State -> list Action) :
  exists acts,
    forallb bookkeeping acts = true /\
    view (handle w h) = commit (commit (view w) (h (view w))) acts /\
    completions (handle w h) = rev (emitted (h (view w))) ++ completions w.
Proof.
  unfold handle.
  destruct (settle_shape (performAll w (h (view w)))) as (acts & Hb & Hv & Hc).
  exists acts. rewrite Hv, Hc, view_performAll, completions_performAll. auto.
Qed.

Lemma fireDue_shape (fuel : nat) (w : World) :
  exists acts,
    forallb benign acts = true /\
    view (fireDue fuel w) = commit (view w) acts /\
    completions (fireDue fuel w) = completions w.
Proof.
  revert w. induction fuel as [| fuel IH]; intros w; cbn [fireDue].
  - exists []. auto.
  - destruct (find _ (timers w)) as [[t due] |].
    + set (w1 := mkWorld _ _ _ _ _ _).
      destruct (settle_shape (performAll w1 timerCallback)) as (a1 & Hb1 & Hv1 & Hc1).
      destruct (IH (settle (performAll w1 timerCallback))) as (a2 & Hb2 & Hv2 & Hc2).
      exists (timerCallback ++ a1 ++ a2). repeat split.
      * rewrite !forallb_app, (bookkeeping_benign _ Hb1), Hb2. reflexivity.
      * rewrite Hv2, Hv1, view_performAll, !commit_app. reflexivity.
      * rewrite Hc2, Hc1, completions_performAll. reflexivity.
    + exists []. auto.
Qed.

(** Every event is its handler followed by benign actions. *)
Lemma dispatch_shape (cards : list Flashcard) (w : World) (e : Event) :
  exists acts,
    forallb benign acts = true /\
    view (dispatch cards w e) =
      commit (commit (view w) (handlerOf cards e (view w))) acts /\
    completions (dispatch cards w e) =
      rev (emitted (handlerOf cards e (view w))) ++ completions w.
Proof.
  destruct e; cbn [dispatch handlerOf];
    try match goal with
        | |- context [handle w ?h] =>
            destruct (handle_shape w h) as (acts & Hb & Hv & Hc);
            exists acts; auto using bookkeeping_benign
        end.
  unfold elapse.
  destruct (fireDue_shape
              (List.length (timers w))
              (mkWorld (view w) (effectRender w) (timers w)
                       (clock w + dt)%N (nextTimer w) (completions w)))
    as (acts & Hb & Hv & Hc).
  exists acts. cbn [commit fold_left emitted flat_map rev app].
  repeat split; auto.
Qed.

(** The invariant principle for runs: a stable property of the cells that
    every allowed handler preserves holds along the run, and what the run
    passes to [onComplete] is what those handlers emit. *)
Lemma run_invariant (cards : list Flashcard) (I : State -> Prop)
  (G : list Flashcard -> Prop) (allowed : Event -> bool) :
  stable I ->
  (forall e s, allowed e = true -> I s ->
     I (commit s (handlerOf cards e s)) /\
     Forall G (emitted (handlerOf cards e s))) ->
  forall evs w,
    forallb allowed evs = true -> I (view w) ->
    I (view (run cards w evs)) /\
    exists new, completions (run cards w evs) = new ++ completions w /\
                Forall G new.
Proof.
  intros HI Hstep. induction evs as [| e evs IH]; intros w Hall Hw.
  - split; [exact Hw |]. exists []. auto.
  - cbn in Hall. apply andb_prop in Hall as [He Hevs].
    destruct (dispatch_shape cards w e) as (acts & Hb & Hv & Hc).
    destruct (Hstep e (view w) He Hw) as [Hs Hg].
    assert (Hw' : I (view (dispatch cards w e))).
    { rewrite Hv. now apply stable_commit. }
    destruct (IH (dispatch cards w e) Hevs Hw') as (Hfin & new & Hnew & Hgn).
    split; [exact Hfin |].
    exists (new ++ rev (emitted (handlerOf cards e (view w)))).
    split.
    + cbn [run fold_left] in *. unfold run in Hnew. rewrite Hnew, Hc.
      now rewrite app_assoc.
    + apply Forall_app. split; [exact Hgn |]. now apply Forall_rev.
Qed.

Lemma view_mount (cards : list Flashcard) :
  view (mount cards) =
  mkState 0 false (filter (fun card => negb (mastered card)) cards) []
          (filter (fun card => mastered card) cards) None.
Proof. reflexivity. Qed.

Lemma run_app (cards : list Flashcard) (w : World) (xs ys : list Event) :
  run cards w (xs ++ ys) = run cards (run cards w xs) ys.
Proof. apply fold_left_app. Qed.

(** *** What the handlers leave in the cells *)

(** [nextCard] reads the render [s] it was created in, while its updates
    land on the cells [s'] that earlier updates of the same handler have
    already changed. *)
Lemma commit_nextCard (cards : list Flashcard) (s s' : State) :
  commit s' (nextCard cards s) =
    if currentIndex s + 1 <? List.length (studyCards s) then
      mkState (currentIndex s + 1) false (studyCards s') (reviewQueue s')
              (completedCards s') (autoFlipTimer s')
    else if 0 <? List.length (reviewQueue s) then
      mkState 0 false (reviewQueue s) [] (completedCards s') (autoFlipTimer s')
    else
      mkState (currentIndex s') false (studyCards s') (reviewQueue s')
              (completedCards s') (autoFlipTimer s').
Proof.
  unfold nextCard.
  destruct (currentIndex s + 1 <? List.length (studyCards s)); [reflexivity |].
  destruct (0 <? List.length (reviewQueue s)); reflexivity.
Qed.

Lemma emitted_nextCard (cards : list Flashcard) (s : State) :
  emitted (nextCard cards s) =
    if currentIndex s + 1 <? List.length (studyCards s) then []
    else if 0 <? List.length (reviewQueue s) then []
    else [map (completedOr (completedCards s)) cards].
Proof.
  unfold nextCard.
  destruct (currentIndex s + 1 <? List.length (studyCards s)); [reflexivity |].
  destruct (0 <? List.length (reviewQueue s)); reflexivity.
Qed.

Lemma commit_handleReview (cards : list Flashcard) (s : State) (current : Flashcard) :
  currentCard s = Some current ->
  commit s (handleReview cards s) =
    if currentIndex s + 1 <? List.length (studyCards s) then
      mkState (currentIndex s + 1) false (studyCards s)
              (reviewQueue s ++ [current]) (completedCards s) (autoFlipTimer s)
    else if 0 <? List.length (reviewQueue s) then
      mkState 0 false (reviewQueue s) [] (completedCards s) (autoFlipTimer s)
    else
      mkState (currentIndex s) false (studyCards s)
              (reviewQueue s ++ [current]) (completedCards s) (autoFlipTimer s).
Proof.
  intros Hc. unfold handleReview. rewrite Hc.
  change (commit s (?a :: ?l)) with (commit (applyUpdate s a) l).
  rewrite commit_nextCard. reflexivity.
Qed.

Lemma emitted_handleReview (cards : list Flashcard) (s : State) (current : Flashcard) :
  currentCard s = Some current ->
  emitted (handleReview cards s) = emitted (nextCard cards s).
Proof.
  intros Hc. unfold handleReview. rewrite Hc. reflexivity.
Qed.

Lemma commit_handleKnown (cards : list Flashcard) (s : State) (current : Flashcard) :
  currentCard s = Some current ->
  commit s (handleKnown cards s) =
    if currentIndex s + 1 <? List.length (studyCards s) then
      mkState (currentIndex s + 1) false (studyCards s) (reviewQueue s)
              (completedCards s ++ [markMastered current]) (autoFlipTimer s)
    else if 0 <? List.length (reviewQueue s) then
      mkState 0 false (reviewQueue s) []
              (completedCards s ++ [markMastered current]) (autoFlipTimer s)
    else
      mkState (currentIndex s) false (studyCards s) (reviewQueue s)
              (completedCards s ++ [markMastered current]) (autoFlipTimer s).
Proof.
  intros Hc. unfold handleKnown. rewrite Hc.
  change (commit s (?a :: ?l)) with (commit (applyUpdate s a) l).
  destruct (Nat.ltb_spec (currentIndex s + 1) (List.length (studyCards s))) as [L | L].
  - destruct (Nat.leb_spec (List.length (studyCards s)) (currentIndex s + 1)); [lia |].
    cbn [andb]. rewrite commit_nextCard.
    destruct (Nat.ltb_spec (currentIndex s + 1) (List.length (studyCards s))); [| lia].
    reflexivity.
  - destruct (Nat.leb_spec (List.length (studyCards s)) (currentIndex s + 1)); [| lia].
    cbn [andb].
    destruct (Nat.eqb_spec (List.length (reviewQueue s)) 0) as [E | E].
    + rewrite E. reflexivity.
    + rewrite commit_nextCard.
      destruct (Nat.ltb_spec (currentIndex s + 1) (List.length (studyCards s))); [lia |].
      destruct (Nat.ltb_spec 0 (List.length (reviewQueue s))); [| lia].
      reflexivity.
Qed.

Lemma emitted_handleKnown (cards : list Flashcard) (s : State) (current : Flashcard) :
  currentCard s = Some current ->
  emitted (handleKnown cards s) =
    if currentIndex s + 1 <? List.length (studyCards s) then []
    else if 0 <? List.length (reviewQueue s) then []
    else [map (fun card =>
                 if String.eqb (id card) (id current) then markMastered current
                 else completedOr (completedCards s) card)
              cards].
Proof.
  intros Hc. unfold handleKnown. rewrite Hc.
  change (emitted (?a :: ?l)) with (emitted [a] ++ emitted l).
  cbn [emitted flat_map app].
  destruct (Nat.ltb_spec (currentIndex s + 1) (List.length (studyCards s))) as [L | L].
  - destruct (Nat.leb_spec (List.length (studyCards s)) (currentIndex s + 1)); [lia |].
    cbn [andb]. fold (emitted (nextCard cards s)). rewrite emitted_nextCard.
    destruct (Nat.ltb_spec (currentIndex s + 1) (List.length (studyCards s))); [| lia].
    reflexivity.
  - destruct (Nat.leb_spec (List.length (studyCards s)) (currentIndex s + 1)); [| lia].
    cbn [andb].
    destruct (Nat.eqb_spec (List.length (reviewQueue s)) 0) as [E | E].
    + rewrite E. reflexivity.
    + fold (emitted (nextCard cards s)). rewrite emitted_nextCard.
      destruct (Nat.ltb_spec (currentIndex s + 1) (List.length (studyCards s))); [lia |].
      destruct (Nat.ltb_spec 0 (List.length (reviewQueue s))); [| lia].
      reflexivity.
Qed.

Lemma handler_without_card (cards : list Flashcard) (s : State) :
  currentCard s = None ->
  handleKnown cards s = [] /\ handleReview cards s = [].
Proof.
  intros Hc. unfold handleKnown, handleReview. now rewrite Hc.
Qed.

(** *** The handlers against the pass-advance rule *)

Ltac engine_fields :=
  cbn [SessionSpec.engineOf SessionSpec.primaryQueue SessionSpec.reviewQueue
       SessionSpec.cursor SessionSpec.isFlipped SessionSpec.completed
       currentIndex isFlipped studyCards reviewQueue completedCards
       autoFlipTimer] in *.

(** [handleKnown] follows the rule in every render: the same queues, cursor
    and completed cards, the card face down again, and [onComplete] called
    exactly when the rule says the session is complete. *)
Lemma handleKnown_follows_rule (cards : list Flashcard) (s : State)
  (e' : SessionSpec.Engine) (done : bool) :
  SessionSpec.markKnown (SessionSpec.engineOf s) = Some (e', done) ->
  SessionSpec.sameQueues (SessionSpec.engineOf (commit s (handleKnown cards s))) e' /\
  isFlipped (commit s (handleKnown cards s)) = false /\
  List.length (emitted (handleKnown cards s)) = (if done then 1 else 0).
Proof.
  unfold SessionSpec.markKnown. cbn [SessionSpec.engineOf SessionSpec.primaryQueue SessionSpec.cursor].
  fold (currentCard s).
  destruct (currentCard s) as [current |] eqn:Hc; [| discriminate].
  rewrite (commit_handleKnown cards s Hc), (emitted_handleKnown cards s Hc).
  unfold SessionSpec.passAdvance, SessionSpec.sameQueues. engine_fields.
  destruct (currentIndex s + 1 <? List.length (studyCards s)).
  - intros H. injection H as <- <-. engine_fields. repeat split.
  - destruct (reviewQueue s) as [| r rq]; cbn [List.length Nat.ltb Nat.leb];
      intros H; injection H as <- <-; engine_fields; repeat split.
Qed.

(** [nextCard] is the rule, read on the cells of the render it runs in. *)
Lemma nextCard_follows_rule_on_render (cards : list Flashcard) (s : State) :
  SessionSpec.sameQueues
    (SessionSpec.engineOf (commit s (nextCard cards s)))
    (fst (SessionSpec.passAdvance (SessionSpec.engineOf s))) /\
  isFlipped (commit s (nextCard cards s)) = false /\
  List.length (emitted (nextCard cards s)) =
    (if snd (SessionSpec.passAdvance (SessionSpec.engineOf s)) then 1 else 0).
Proof.
  rewrite commit_nextCard, emitted_nextCard.
  unfold SessionSpec.passAdvance, SessionSpec.sameQueues. engine_fields.
  destruct (currentIndex s + 1 <? List.length (studyCards s)).
  - engine_fields. cbn [fst snd]. engine_fields. repeat split.
  - destruct (reviewQueue s) as [| r rq] eqn:E;
      cbn [List.length Nat.ltb Nat.leb fst snd]; engine_fields;
      rewrite ?E; repeat split.
Qed.

(** [handleReview] follows the rule while the pass has cards left. *)
Lemma handleReview_follows_rule_within_pass (cards : list Flashcard) (s : State) :
  currentIndex s + 1 < List.length (studyCards s) ->
  exists e',
    SessionSpec.markReview (SessionSpec.engineOf s) = Some (e', false) /\
    SessionSpec.sameQueues (SessionSpec.engineOf (commit s (handleReview cards s))) e' /\
    isFlipped (commit s (handleReview cards s)) = false /\
    emitted (handleReview cards s) = [].
Proof.
  intros L.
  destruct (currentCard s) as [current |] eqn:Hc.
  2:{ apply nth_error_None in Hc. lia. }
  rewrite (commit_handleReview cards s Hc), (emitted_handleReview cards s Hc),
    emitted_nextCard.
  unfold SessionSpec.markReview, SessionSpec.passAdvance, SessionSpec.sameQueues.
  engine_fields. fold (currentCard s). rewrite Hc. engine_fields.
  destruct (Nat.ltb_spec (currentIndex s + 1) (List.length (studyCards s))); [| lia].
  eexists. split; [reflexivity |]. engine_fields. repeat split.
Qed.

(** C4 (the code departs from the specification).
    In the render where the second
    card of a two-card pass is on screen and the first one is already
    deferred (reached by flip, review, flip), [handleReview] leaves the
    study queue [[cardA]] and an empty review queue, where the rule applied
    after the deferral gives the study queue [[cardA; cardB]].  In a
    one-card pass with nothing deferred, it calls [onComplete] and leaves
    the card in the review queue, where the rule starts a new pass: the
    handler tests the review queue of its render, not the queue the card
    was just appended to. *)
Theorem C4_deferral_at_end_of_pass_departs_from_rule :
  let cards := [cardA; cardB] in
  session (view (run cards (mount cards) [ClickFlip; ClickReview; ClickFlip]))
    = session lastOfPass /\
  SessionSpec.engineOf (commit lastOfPass (handleReview cards lastOfPass))
    = SessionSpec.mkEngine [cardA] [] 0 false [] /\
  SessionSpec.markReview (SessionSpec.engineOf lastOfPass)
    = Some (SessionSpec.mkEngine [cardA; cardB] [] 0 false [], false) /\
  session (view (run [cardA] (mount [cardA]) [ClickFlip])) = session singleCard /\
  SessionSpec.engineOf (commit singleCard (handleReview [cardA] singleCard))
    = SessionSpec.mkEngine [cardA] [cardA] 0 false [] /\
  emitted (handleReview [cardA] singleCard) = [[cardA]] /\
  SessionSpec.markReview (SessionSpec.engineOf singleCard)
    = Some (SessionSpec.mkEngine [cardA] [] 0 false [], false).
Proof.
  cbv zeta. repeat split; reflexivity.
Qed.

(** *** The current card *)

Lemma cursorInRange_stable : stable cursorInRange.
Proof.
  intros s a Ha H. destruct a; try discriminate; exact H.
Qed.

Lemma cursorInRange_nextCard (current : Flashcard) (s : State) (completed : list Flashcard)
  (deferred : list Flashcard) (t : option TimerId) :
  cursorInRange s ->
  cursorInRange
    (if currentIndex s + 1 <? List.length (studyCards s) then
       mkState (currentIndex s + 1) false (studyCards s) deferred completed t
     else if 0 <? List.length (reviewQueue s) then
       mkState 0 false (reviewQueue s) [] completed t
     else mkState (currentIndex s) false (studyCards s) deferred completed t).
Proof.
  intros H. unfold cursorInRange in *.
  destruct (Nat.ltb_spec (currentIndex s + 1) (List.length (studyCards s))).
  - right. cbn. lia.
  - destruct (Nat.ltb_spec 0 (List.length (reviewQueue s))).
    + right. cbn. lia.
    + exact H.
Qed.

Lemma cursorInRange_step (cards : list Flashcard) (e : Event) (s : State) :
  cursorInRange s -> cursorInRange (commit s (handlerOf cards e s)).
Proof.
  intros H. destruct e; cbn [handlerOf].
  - apply stable_commit; auto using cursorInRange_stable, handleCardFlip_benign.
  - destruct (currentCard s) as [current |] eqn:Hc.
    + rewrite (commit_handleKnown cards s Hc).
      now apply cursorInRange_nextCard.
    + now rewrite (proj1 (handler_without_card cards s Hc)).
  - destruct (currentCard s) as [current |] eqn:Hc.
    + rewrite (commit_handleReview cards s Hc).
      now apply cursorInRange_nextCard.
    + now rewrite (proj2 (handler_without_card cards s Hc)).
  - unfold cursorInRange. cbn.
    destruct (filter (fun card => negb (mastered card)) cards); [now left |].
    right. cbn. lia.
  - exact H.
Qed.

Lemma cursorInRange_run (cards : list Flashcard) (evs : list Event) :
  cursorInRange (view (run cards (mount cards) evs)).
Proof.
  refine (proj1 (@run_invariant cards cursorInRange (fun _ => True)
                   (fun _ => true) cursorInRange_stable _ evs (mount cards) _ _)).
  - intros e s _ H. split; [now apply cursorInRange_step |].
    apply Forall_forall. auto.
  - apply forallb_forall. auto.
  - rewrite view_mount. unfold cursorInRange. cbn.
    destruct (filter (fun card => negb (mastered card)) cards); [now left |].
    right. cbn. lia.
Qed.

(** C7, as specified, fails: with nothing left to study, reading the current
    card yields [undefined] and [handleKnown] returns without doing
    anything; neither raises. *)
Lemma C7_empty_queue_raises_nothing :
  studyCards nothingToStudy = [] /\
  readCurrentCard nothingToStudy = Normal None /\
  readCurrentCard nothingToStudy <> Throw "EmptyQueue" /\
  invoke (handleKnown []) nothingToStudy = Normal [] /\
  invoke (handleKnown []) nothingToStudy <> Throw "NoCurrentCard".
Proof.
  repeat split; try reflexivity; discriminate.
Qed.

(** *** Restart *)

(** C8.  In any state of the component, the restart handler leaves the five
    session cells exactly as mounting the component on the [cards] prop
    does: cursor 0, card face down, the unmastered cards of the prop in
    order as the study queue, an empty review queue, and the mastered cards
    of the prop as the completed ones. *)
Theorem C8_restart_restores_start (cards : list Flashcard) (w : World) :
  session (view (dispatch cards w ClickRestart)) = session (view (mount cards)) /\
  session (view (mount cards)) =
    (0, false, filter (fun card => negb (mastered card)) cards, [],
     filter (fun card => mastered card) cards).
Proof.
  split; [| reflexivity].
  cbn [dispatch].
  destruct (handle_shape w (handleRestart cards)) as (acts & Hb & Hv & _).
  rewrite Hv, (session_bookkeeping _ _ Hb). reflexivity.
Qed.

(** *** The cards in the two queues *)

Lemma queuesSatisfy_stable (P : Flashcard -> Prop) : stable (queuesSatisfy P).
Proof.
  intros s a Ha H. destruct a; try discriminate; exact H.
Qed.

Lemma currentCard_In (s : State) (current : Flashcard) :
  currentCard s = Some current -> In current (studyCards s).
Proof. apply nth_error_In. Qed.

(** No handler but restart brings a card into the queues: what is queued
    after the handler was queued before. *)
Lemma queuesSatisfy_step (P : Flashcard -> Prop) (cards : list Flashcard)
  (e : Event) (s : State) :
  isRestart e = false ->
  queuesSatisfy P s -> queuesSatisfy P (commit s (handlerOf cards e s)).
Proof.
  intros He [Hs Hr]. destruct e; try discriminate; cbn [handlerOf].
  - apply stable_commit;
      auto using queuesSatisfy_stable, handleCardFlip_benign. now split.
  - destruct (currentCard s) as [current |] eqn:Hc.
    + rewrite (commit_handleKnown cards s Hc).
      destruct (currentIndex s + 1 <? List.length (studyCards s)); [now split |].
      destruct (0 <? List.length (reviewQueue s)); now split.
    + rewrite (proj1 (handler_without_card cards s Hc)). now split.
  - destruct (currentCard s) as [current |] eqn:Hc.
    + assert (Hp : Forall P (reviewQueue s ++ [current])).
      { apply Forall_app. split; [exact Hr |]. constructor; [| constructor].
        apply (proj1 (Forall_forall P (studyCards s)) Hs).
        now apply currentCard_In. }
      rewrite (commit_handleReview cards s Hc).
      destruct (currentIndex s + 1 <? List.length (studyCards s)); [now split |].
      destruct (0 <? List.length (reviewQueue s)); now split.
    + rewrite (proj2 (handler_without_card cards s Hc)). now split.
  - now split.
Qed.

Lemma queuesSatisfy_restart (P : Flashcard -> Prop) (cards : list Flashcard) (s : State) :
  Forall P cards -> queuesSatisfy P (commit s (handleRestart cards s)).
Proof.
  intros H. split; cbn; [| constructor].
  apply Forall_forall. intros c Hin. apply filter_In in Hin as [Hin _].
  exact (proj1 (Forall_forall P cards) H c Hin).
Qed.

(** C1 (the code departs from the specification).
    Deck [[cardA; cardB]], both
    revealed and sent to review.  When the second card is deferred it is the
    current card at the last position of the pass and the session is not
    complete; after the handler the study queue is [[cardA]] and the review
    queue is empty, so the deferred card is in neither.  From there on, in
    every run without a restart, it is never the current card again, and
    revealing and knowing the first card completes the session with the
    deferred card unmastered. *)
Theorem C1_card_deferred_at_end_of_pass_is_dropped
  (evs : list Event)
  (Hno : forallb (fun e => negb (isRestart e)) evs = true) :
  let cards := [cardA; cardB] in
  let before := run cards (mount cards) [ClickFlip; ClickReview; ClickFlip] in
  let after := dispatch cards before ClickReview in
  currentCard (view before) = Some cardB /\
  currentIndex (view before) + 1 = List.length (studyCards (view before)) /\
  completions after = [] /\
  studyCards (view after) = [cardA] /\
  reviewQueue (view after) = [] /\
  currentCard (view (run cards after evs)) <> Some cardB /\
  completions (run cards after [ClickFlip; ClickKnown])
    = [[markMastered cardA; cardB]].
Proof.
  cbv zeta. repeat split; try reflexivity.
  set (cards := [cardA; cardB]).
  set (after := dispatch cards _ ClickReview).
  assert (Hq : queuesSatisfy (fun c => c <> cardB) (view after)).
  { split; cbn; repeat constructor; discriminate. }
  destruct (@run_invariant cards (queuesSatisfy (fun c => c <> cardB))
              (fun _ => True) (fun e => negb (isRestart e))
              (@queuesSatisfy_stable _)) with (evs := evs) (w := after)
    as [[Hs _] _]; auto.
  - intros e s He H. split.
    + apply queuesSatisfy_step; [| exact H]. now destruct (isRestart e).
    + apply Forall_forall. auto.
  - intros Hcur. apply currentCard_In in Hcur.
    exact (proj1 (Forall_forall _ _) Hs cardB Hcur eq_refl).
Qed.

Lemma C1_card_deferred_at_end_of_pass_is_dropped_witness :
  let evs := [ClickFlip; Elapse 6000; ClickFlip; ClickKnown] in
  let cards := [cardA; cardB] in
  let before := run cards (mount cards) [ClickFlip; ClickReview; ClickFlip] in
  let after := dispatch cards before ClickReview in
  currentCard (view before) = Some cardB /\
  currentIndex (view before) + 1 = List.length (studyCards (view before)) /\
  completions after = [] /\
  studyCards (view after) = [cardA] /\
  reviewQueue (view after) = [] /\
  currentCard (view (run cards after evs)) <> Some cardB /\
  completions (run cards after [ClickFlip; ClickKnown])
    = [[markMastered cardA; cardB]].
Proof.
  exact (@C1_card_deferred_at_end_of_pass_is_dropped
           [ClickFlip; Elapse 6000; ClickFlip; ClickKnown] eq_refl).
Defined.

(** *** Mastery *)

Lemma completedOr_cases (completed : list Flashcard) (card : Flashcard) :
  (In (completedOr completed card) completed /\
   id (completedOr completed card) = id card) \/
  (completedOr completed card = card /\
   forall k, In k completed -> id k <> id card).
Proof.
  unfold completedOr.
  destruct (find (fun c => String.eqb (id c) (id card)) completed) as [k |] eqn:F.
  - left. apply find_some in F as [Hin He]. apply String.eqb_eq in He. auto.
  - right. split; [reflexivity |]. intros k Hin Hid.
    pose proof (find_none _ _ F k Hin) as N. cbn in N.
    rewrite Hid, String.eqb_refl in N. discriminate.
Qed.

Lemma completedOr_keeps (completed : list Flashcard) (card : Flashcard) :
  Forall isMastered completed -> keeps card (completedOr completed card).
Proof.
  intros HF. destruct (completedOr_cases completed card) as [[Hin Hid] | [-> _]].
  - split; [exact Hid |]. intros _.
    exact (proj1 (Forall_forall _ _) HF _ Hin).
  - split; auto.
Qed.

Lemma completedOr_resolved (completed : list Flashcard) (card c : Flashcard) :
  Forall isMastered completed -> resolved c completed ->
  id (completedOr completed card) = id c ->
  mastered (completedOr completed card) = true.
Proof.
  intros HF (k & Hk & Hid).
  destruct (completedOr_cases completed card) as [[Hin _] | [-> Hno]].
  - intros _. exact (proj1 (Forall_forall _ _) HF _ Hin).
  - intros Hc. exfalso. apply (Hno k Hk). congruence.
Qed.

Lemma Forall2_map_self {A B : Type} (R : A -> B -> Prop) (f : A -> B) (l : list A) :
  (forall x, R x (f x)) -> Forall2 R l (map f l).
Proof.
  intros H. induction l; cbn; constructor; auto.
Qed.

(** The list [nextCard] hands to [onComplete]. *)
Lemma nextCard_emits (cards : list Flashcard) (s : State) (G : list Flashcard -> Prop) :
  G (map (completedOr (completedCards s)) cards) ->
  Forall G (emitted (nextCard cards s)).
Proof.
  intros H. rewrite emitted_nextCard.
  destruct (currentIndex s + 1 <? List.length (studyCards s)); [constructor |].
  destruct (0 <? List.length (reviewQueue s)); repeat constructor. exact H.
Qed.

(** The list [handleKnown] hands to [onComplete]. *)
Lemma handleKnown_emits (cards : list Flashcard) (s : State) (current : Flashcard)
  (G : list Flashcard -> Prop) :
  currentCard s = Some current ->
  G (map (fun card =>
            if String.eqb (id card) (id current) then markMastered current
            else completedOr (completedCards s) card)
         cards) ->
  Forall G (emitted (handleKnown cards s)).
Proof.
  intros Hc H. rewrite (emitted_handleKnown cards s Hc).
  destruct (currentIndex s + 1 <? List.length (studyCards s)); [constructor |].
  destruct (0 <? List.length (reviewQueue s)); repeat constructor. exact H.
Qed.

Lemma completedCards_handleKnown (cards : list Flashcard) (s : State) (current : Flashcard) :
  currentCard s = Some current ->
  completedCards (commit s (handleKnown cards s))
  = completedCards s ++ [markMastered current].
Proof.
  intros Hc. rewrite (commit_handleKnown cards s Hc).
  destruct (currentIndex s + 1 <? List.length (studyCards s)); [reflexivity |].
  destruct (0 <? List.length (reviewQueue s)); reflexivity.
Qed.

Lemma completedCards_handleReview (cards : list Flashcard) (s : State) :
  completedCards (commit s (handleReview cards s)) = completedCards s.
Proof.
  destruct (currentCard s) as [current |] eqn:Hc.
  - rewrite (commit_handleReview cards s Hc).
    destruct (currentIndex s + 1 <? List.length (studyCards s)); [reflexivity |].
    destruct (0 <? List.length (reviewQueue s)); reflexivity.
  - now rewrite (proj2 (handler_without_card cards s Hc)).
Qed.

Lemma completedCards_benign (acts : list Action) (s : State) :
  forallb benign acts = true -> completedCards (commit s acts) = completedCards s.
Proof.
  revert s. induction acts as [| a acts IH]; intros s; [reflexivity |].
  cbn [forallb]. intros H. apply andb_prop in H as [Ha Hs].
  change (commit s (a :: acts)) with (commit (applyUpdate s a) acts).
  rewrite IH by assumption.
  destruct a; try discriminate; reflexivity.
Qed.

Lemma masteryKept_stable (cards : list Flashcard) : stable (masteryKept cards).
Proof.
  intros s a Ha H. destruct a; try discriminate; exact H.
Qed.

Lemma masteryKept_start (cards : list Flashcard) (s : State) :
  masteryKept cards (commit s (handleRestart cards s)).
Proof.
  split; [| split].
  - cbn. apply Forall_forall. intros c Hin.
    apply filter_In in Hin as [_ Hm]. exact Hm.
  - cbn. apply incl_refl.
  - apply queuesSatisfy_restart. apply Forall_forall. auto.
Qed.

Lemma masteryKept_step (cards : list Flashcard) (e : Event) (s : State) :
  masteryKept cards s ->
  masteryKept cards (commit s (handlerOf cards e s)) /\
  Forall (keepsDeck cards) (emitted (handlerOf cards e s)).
Proof.
  intros (HF & Hincl & Hq).
  destruct (isRestart e) eqn:Er.
  - destruct e; try discriminate. cbn [handlerOf]. split.
    + apply masteryKept_start.
    + constructor.
  - pose proof (queuesSatisfy_step cards e Er Hq) as Hq'.
    destruct e; try discriminate; cbn [handlerOf] in *.
    + split.
      * apply stable_commit;
          auto using masteryKept_stable, handleCardFlip_benign.
        exact (conj HF (conj Hincl Hq)).
      * rewrite emitted_benign by apply handleCardFlip_benign. constructor.
    + destruct (currentCard s) as [current |] eqn:Hc.
      * split.
        -- split; [| split; [| exact Hq']];
             rewrite (completedCards_handleKnown cards s Hc).
           ++ apply Forall_app. split; [exact HF |]. repeat constructor.
           ++ now apply incl_appl.
        -- apply handleKnown_emits with (current := current); [exact Hc |].
           apply Forall2_map_self.
           intros card.
           destruct (String.eqb (id card) (id current)) eqn:E.
           ++ apply String.eqb_eq in E. split; cbn; auto.
           ++ now apply completedOr_keeps.
      * rewrite (proj1 (handler_without_card cards s Hc)) in *.
        split; [exact (conj HF (conj Hincl Hq)) | constructor].
    + split.
      * split; [| split; [| exact Hq']];
          now rewrite completedCards_handleReview.
      * destruct (currentCard s) as [current |] eqn:Hc.
        -- rewrite (emitted_handleReview cards s Hc).
           apply nextCard_emits. apply Forall2_map_self.
           intros card. now apply completedOr_keeps.
        -- rewrite (proj2 (handler_without_card cards s Hc)). constructor.
    + split; [exact (conj HF (conj Hincl Hq)) | constructor].
Qed.

Lemma resolvedKept_stable (c : Flashcard) : stable (resolvedKept c).
Proof.
  intros s a Ha H. destruct a; try discriminate; exact H.
Qed.

Lemma idMastered_completedOr (c : Flashcard) (cards completed : list Flashcard) :
  Forall isMastered completed -> resolved c completed ->
  idMastered c (map (completedOr completed) cards).
Proof.
  intros HF Hr. apply Forall_forall. intros o Hin.
  apply in_map_iff in Hin as (card & <- & _).
  now apply completedOr_resolved.
Qed.

Lemma idMastered_handleKnown (c current : Flashcard) (cards completed : list Flashcard) :
  Forall isMastered completed ->
  resolved c completed \/ id current = id c ->
  idMastered c
    (map (fun card =>
            if String.eqb (id card) (id current) then markMastered current
            else completedOr completed card)
         cards).
Proof.
  intros HF Hr. apply Forall_forall. intros o Hin.
  apply in_map_iff in Hin as (card & <- & _).
  destruct (String.eqb (id card) (id current)) eqn:E; [reflexivity |].
  destruct Hr as [Hr | Hr]; [now apply completedOr_resolved |].
  destruct (completedOr_cases completed card) as [[Hin _] | [-> _]].
  - intros _. exact (proj1 (Forall_forall _ _) HF _ Hin).
  - intros Hid. rewrite <- Hr in Hid. rewrite Hid, String.eqb_refl in E.
    discriminate.
Qed.

Lemma resolvedKept_step (c : Flashcard) (cards : list Flashcard) (e : Event) (s : State) :
  isRestart e = false ->
  resolvedKept c s ->
  resolvedKept c (commit s (handlerOf cards e s)) /\
  Forall (idMastered c) (emitted (handlerOf cards e s)).
Proof.
  intros Er (HF & Hr).
  destruct e; try discriminate; cbn [handlerOf].
  - split.
    + apply stable_commit;
        auto using resolvedKept_stable, handleCardFlip_benign. now split.
    + rewrite emitted_benign by apply handleCardFlip_benign. constructor.
  - destruct (currentCard s) as [current |] eqn:Hc.
    + split.
      * unfold resolvedKept. rewrite (completedCards_handleKnown cards s Hc). split.
        -- apply Forall_app. split; [exact HF |]. repeat constructor.
        -- destruct Hr as (k & Hk & Hid). exists k. split; [| exact Hid].
           apply in_or_app. now left.
      * apply handleKnown_emits with (current := current); [exact Hc |].
        apply idMastered_handleKnown; auto.
    + rewrite (proj1 (handler_without_card cards s Hc)).
      split; [now split | constructor].
  - split.
    + unfold resolvedKept. rewrite completedCards_handleReview. now split.
    + destruct (currentCard s) as [current |] eqn:Hc.
      * rewrite (emitted_handleReview cards s Hc).
        apply nextCard_emits. now apply idMastered_completedOr.
      * rewrite (proj2 (handler_without_card cards s Hc)). constructor.
  - split; [now split | constructor].
Qed.

Lemma masteryKept_run (cards : list Flashcard) (evs : list Event) :
  masteryKept cards (view (run cards (mount cards) evs)) /\
  Forall (keepsDeck cards) (completions (run cards (mount cards) evs)).
Proof.
  destruct (@run_invariant cards (masteryKept cards) (keepsDeck cards)
              (fun _ => true) (@masteryKept_stable cards))
    with (evs := evs) (w := mount cards) as (H & new & Hnew & Hg).
  - intros e s _ Hs. now apply masteryKept_step.
  - apply forallb_forall. auto.
  - rewrite view_mount.
    exact (masteryKept_start cards initialState).
  - split; [exact H |]. rewrite Hnew. cbn. now rewrite app_nil_r.
Qed.

(** From the render in which [current] is known, up to the next restart,
    every emitted list has the cards with the id of [current] mastered. *)
Lemma known_stays_mastered (cards : list Flashcard) (w0 : World)
  (post : list Event) (current : Flashcard) :
  Forall isMastered (completedCards (view w0)) ->
  currentCard (view w0) = Some current ->
  forallb (fun e => negb (isRestart e)) post = true ->
  exists new,
    completions (run cards (dispatch cards w0 ClickKnown) post)
      = new ++ completions w0 /\
    Forall (idMastered current) new.
Proof.
  intros HF Hc Hpost.
  destruct (dispatch_shape cards w0 ClickKnown) as (acts & Hb & Hv & Hn).
  cbn [handlerOf] in Hv, Hn.
  assert (Hk : resolvedKept current (view (dispatch cards w0 ClickKnown))).
  { rewrite Hv. apply stable_commit; auto using resolvedKept_stable.
    unfold resolvedKept. rewrite (completedCards_handleKnown cards _ Hc). split.
    - apply Forall_app. split; [exact HF |]. repeat constructor.
    - exists (markMastered current). split; [| reflexivity].
      apply in_or_app. right. now left. }
  destruct (@run_invariant cards (resolvedKept current) (idMastered current)
              (fun e => negb (isRestart e)) (@resolvedKept_stable current))
    with (evs := post) (w := dispatch cards w0 ClickKnown)
    as (_ & new & Hnew & Hg); auto.
  - intros e s He Hs. apply resolvedKept_step; [| exact Hs].
    now destruct (isRestart e).
  - exists (new ++ rev (emitted (handleKnown cards (view w0)))). split.
    + rewrite Hnew, Hn. now rewrite app_assoc.
    + apply Forall_app. split; [exact Hg |]. apply Forall_rev.
      apply handleKnown_emits with (current := current); [exact Hc |].
      apply idMastered_handleKnown; auto.
Qed.

(** C10.  Along every run of a session over the deck [cards]:
    - every completed card is mastered, and the cards of the deck that were
      mastered at the start are among the completed cards;
    - the queued cards are cards of the deck, as they came;
    - for the current card, [handleKnown] appends its copy with
      [mastered = true] to the completed cards, and [handleReview] leaves
      the completed cards alone and queues the card itself;
    - every list handed to [onComplete] has, position by position, the ids
      of the deck and [mastered = true] wherever the deck had it;
    - if the run is [pre], a click on "I know this" with [current] on
      screen, then [post] without restart, every list handed to
      [onComplete] from that click on has the cards with the id of
      [current] mastered. *)
Theorem C10_mastery_is_monotone (cards : list Flashcard) (evs : list Event) :
  let w := run cards (mount cards) evs in
  Forall isMastered (completedCards (view w)) /\
  incl (filter (fun card => mastered card) cards) (completedCards (view w)) /\
  incl (studyCards (view w)) cards /\
  incl (reviewQueue (view w)) cards /\
  (forall current,
     currentCard (view w) = Some current ->
     completedCards (commit (view w) (handleKnown cards (view w)))
       = completedCards (view w) ++ [markMastered current] /\
     completedCards (commit (view w) (handleReview cards (view w)))
       = completedCards (view w) /\
     incl (reviewQueue (commit (view w) (handleReview cards (view w))))
          (reviewQueue (view w) ++ [current])) /\
  Forall (keepsDeck cards) (completions w) /\
  (forall pre post current,
     evs = pre ++ ClickKnown :: post ->
     forallb (fun e => negb (isRestart e)) post = true ->
     currentCard (view (run cards (mount cards) pre)) = Some current ->
     exists new,
       completions w = new ++ completions (run cards (mount cards) pre) /\
       Forall (idMastered current) new).
Proof.
  cbv zeta.
  destruct (masteryKept_run cards evs) as ((HF & Hincl & Hs & Hr) & Hout).
  repeat split; auto.
  - intros c Hin. exact (proj1 (Forall_forall _ _) Hs c Hin).
  - intros c Hin. exact (proj1 (Forall_forall _ _) Hr c Hin).
  - now apply completedCards_handleKnown.
  - apply completedCards_handleReview.
  - rewrite (commit_handleReview cards _ H).
    destruct (_ <? _); [apply incl_refl |].
    destruct (_ <? _); [| apply incl_refl].
    intros c [].
  - intros pre post current -> Hpost Hc.
    rewrite run_app. cbn [run fold_left].
    apply known_stays_mastered; auto.
    exact (proj1 (proj1 (masteryKept_run cards pre))).
Qed.

(** *** The reveal timer *)

Lemma depsEqb_eq (a b : nat * bool) : depsEqb a b = true -> a = b.
Proof.
  destruct a as [n x], b as [m y]. unfold depsEqb. cbn.
  intros H. apply andb_prop in H as [Hn Hx].
  apply Nat.eqb_eq in Hn. apply Bool.eqb_prop in Hx. congruence.
Qed.

Lemma quiet_performAll (acts : list Action) (w : World) :
  forallb quiet acts = true ->
  timers (performAll w acts) = timers w /\
  clock (performAll w acts) = clock w /\
  nextTimer (performAll w acts) = nextTimer w /\
  effectRender (performAll w acts) = effectRender w /\
  autoFlipTimer (view (performAll w acts)) = autoFlipTimer (view w) /\
  (isFlipped (view w) = false -> isFlipped (view (performAll w acts)) = false).
Proof.
  revert w. induction acts as [| a acts IH]; intros w; [cbn; repeat split; auto |].
  cbn [forallb]. intros H. apply andb_prop in H as [Ha Hs].
  change (performAll w (a :: acts)) with (performAll (perform w a) acts).
  destruct (IH (perform w a) Hs) as (Ht & Hk & Hn & He & Hf & Hi).
  rewrite Ht, Hk, Hn, He, Hf.
  destruct a; try discriminate; cbn; repeat split; auto.
  destruct b; [discriminate |]. intros _. now apply Hi.
Qed.

Lemma handlers_quiet (cards : list Flashcard) (s : State) :
  forallb quiet (handleKnown cards s) = true /\
  forallb quiet (handleReview cards s) = true /\
  forallb quiet (handleRestart cards s) = true.
Proof.
  unfold handleKnown, handleReview, nextCard.
  destruct (currentCard s); cbn [forallb quiet negb andb];
    destruct (List.length (studyCards s) <=? currentIndex s + 1);
    destruct (List.length (reviewQueue s) =? 0);
    destruct (currentIndex s + 1 <? List.length (studyCards s));
    destruct (0 <? List.length (reviewQueue s)); repeat split.
Qed.

Lemma timerTracked_quiet (w : World) (acts : list Action) :
  forallb quiet acts = true -> timerTracked w -> timerTracked (performAll w acts).
Proof.
  intros Hq. destruct (@quiet_performAll acts w Hq) as (Ht & _ & _ & _ & Hf & Hi).
  unfold timerTracked. rewrite Ht, Hf.
  destruct (timers w) as [| [t due] [| p rest]]; auto.
  intros [Ha Hb]. auto.
Qed.

Ltac world_fields :=
  cbn [view timers effectRender clock nextTimer completions
       currentIndex isFlipped studyCards reviewQueue completedCards
       autoFlipTimer performAll perform fold_left applyUpdate filter app
       fst snd negb deps] in *.

(** Re-rendering keeps the timer tracked and leaves the effect run for the
    dependencies on screen. *)
Lemma settle_tracked (w : World) :
  timerTracked w -> timerTracked (settle w) /\ settled (settle w).
Proof.
  destruct w as [s er ts ck nt cs].
  unfold timerTracked, settled, settle. world_fields.
  destruct (depsEqb (deps s) (deps er)) eqn:E.
  - intros H. split; [exact H |]. world_fields. symmetry. now apply depsEqb_eq.
  - destruct s as [idx f sc rq cc aft].
    unfold autoFlipEffect, autoFlipCleanup, currentCard.
    destruct (autoFlipTimer er) as [u |]; world_fields;
    (destruct ts as [| [t due] [| p rest]]; [| | contradiction]).
    1,3: intros _;
      destruct aft, (nth_error sc idx), f; world_fields; auto.
    all: intros [-> ->]; world_fields;
        try destruct (Nat.eqb t u); world_fields;
        rewrite ?Nat.eqb_refl; world_fields;
        destruct (nth_error sc idx); world_fields; auto.
Qed.

(** A manual flip clears the pending timeout. *)
Lemma handleCardFlip_clears (w : World) :
  timerTracked w ->
  let w' := performAll w (handleCardFlip (view w)) in
  timers w' = [] /\ isFlipped (view w') = negb (isFlipped (view w)).
Proof.
  destruct w as [[idx f sc rq cc aft] er ts ck nt cs].
  unfold timerTracked, handleCardFlip. world_fields.
  destruct ts as [| [t due] [| p rest]]; [| | contradiction].
  - intros _. destruct aft; world_fields; auto.
  - intros [-> ->]. world_fields. rewrite Nat.eqb_refl. world_fields. auto.
Qed.

(** With the card face up, re-rendering arms nothing. *)
Lemma settle_face_up (w : World) :
  timers w = [] -> isFlipped (view w) = true ->
  timers (settle w) = [] /\ isFlipped (view (settle w)) = true.
Proof.
  destruct w as [[idx f sc rq cc aft] er ts ck nt cs].
  unfold settle. world_fields. intros -> ->.
  destruct (depsEqb _ (deps er)); [auto |].
  unfold autoFlipEffect, autoFlipCleanup, currentCard. world_fields.
  destruct (autoFlipTimer er), aft, (nth_error sc idx); world_fields; auto.
Qed.

(** With a card face down and the dependencies changed, re-rendering arms
    one timeout, due [AUTO_FLIP_DELAY] from now. *)
Lemma settle_arms (w : World) (card : Flashcard) :
  timers w = [] ->
  depsEqb (deps (view w)) (deps (effectRender w)) = false ->
  isFlipped (view w) = false -> currentCard (view w) = Some card ->
  timers (settle w) = [(nextTimer w, (clock w + AUTO_FLIP_DELAY)%N)] /\
  autoFlipTimer (view (settle w)) = Some (nextTimer w).
Proof.
  destruct w as [[idx f sc rq cc aft] er ts ck nt cs].
  unfold settle, currentCard. world_fields. intros -> E -> Hc.
  rewrite E.
  unfold autoFlipEffect, autoFlipCleanup, currentCard. world_fields. rewrite Hc.
  destruct (autoFlipTimer er), aft; world_fields; auto.
Qed.

Lemma dispatch_tracked (cards : list Flashcard) (w : World) (e : Event) :
  timerTracked w /\ settled w ->
  timerTracked (dispatch cards w e) /\ settled (dispatch cards w e).
Proof.
  intros [Ht Hs].
  destruct (handlers_quiet cards (view w)) as (Qk & Qr & Qs).
  destruct e; cbn [dispatch]; unfold handle;
    try (apply settle_tracked; now apply timerTracked_quiet).
  - apply settle_tracked. unfold timerTracked.
    now rewrite (proj1 (handleCardFlip_clears w Ht)).
  - unfold elapse.
    set (w1 := mkWorld (view w) (effectRender w) (timers w)
                       (clock w + dt)%N (nextTimer w) (completions w)).
    assert (H1 : timerTracked w1 /\ settled w1) by (split; assumption).
    clearbody w1. clear Ht Hs Qk Qr Qs.
    generalize (List.length (timers w1)). intros fuel. revert w1 H1.
    induction fuel as [| fuel IH]; intros w1 H1; cbn [fireDue]; [exact H1 |].
    destruct (find _ (timers w1)) as [[t due] |] eqn:F; [| exact H1].
    apply IH. apply settle_tracked.
    destruct H1 as [H1 _]. unfold timerTracked in *.
    destruct w1 as [s er ts ck nt cs]. world_fields.
    destruct ts as [| [t' due'] [| p rest]]; [exact I | | contradiction].
    cbn [find] in F. world_fields.
    destruct (due' <=? ck)%N; [| discriminate]. injection F as -> ->.
    rewrite Nat.eqb_refl. world_fields. exact I.
Qed.

Lemma run_tracked (cards : list Flashcard) (evs : list Event) :
  timerTracked (run cards (mount cards) evs) /\
  settled (run cards (mount cards) evs).
Proof.
  unfold run. generalize (mount cards), (conj (I : timerTracked (mount cards))
                                              (eq_refl : settled (mount cards))).
  induction evs as [| e evs IH]; intros w H; [exact H |].
  cbn [fold_left]. apply IH. now apply dispatch_tracked.
Qed.

(** *** The current card, across changes of the cards prop *)

Lemma depsEqb_refl (a : nat * bool) : depsEqb a a = true.
Proof.
  destruct a as [n x]. unfold depsEqb. cbn.
  rewrite Nat.eqb_refl. now destruct x.
Qed.

(** Nothing happens in a render whose auto-flip effect has already run. *)
Lemma settle_settled (w : World) : settled w -> settle w = w.
Proof.
  unfold settled, settle. intros H. now rewrite H, depsEqb_refl.
Qed.

Lemma receiveCards_tracked (newCards : list Flashcard) (w : World) :
  timerTracked w ->
  timerTracked (receiveCards newCards w) /\ settled (receiveCards newCards w).
Proof.
  intros H. unfold receiveCards, handle.
  apply settle_tracked. now apply timerTracked_quiet.
Qed.

Lemma lifetime_tracked (cards : list Flashcard) (steps : list Step) :
  timerTracked (snd (lifetime cards steps)) /\
  settled (snd (lifetime cards steps)).
Proof.
  unfold lifetime.
  assert (H : timerTracked (snd (cards, mount cards)) /\
              settled (snd (cards, mount cards))) by (split; [exact I | reflexivity]).
  revert H. generalize (cards, mount cards).
  induction steps as [| st steps IH]; intros m H; [exact H |].
  cbn [fold_left]. apply IH.
  destruct st as [e | newCards]; cbn [advance snd].
  - now apply dispatch_tracked.
  - apply receiveCards_tracked. exact (proj1 H).
Qed.

(** A life without a change of the prop is a run. *)
Lemma lifetime_frozen (cards : list Flashcard) (steps : list Step) :
  forallb keepsProp steps = true ->
  exists evs, lifetime cards steps = (cards, run cards (mount cards) evs).
Proof.
  unfold lifetime. generalize (mount cards).
  induction steps as [| st steps IH]; intros w H.
  - now exists [].
  - destruct st as [e | newCards]; [| discriminate].
    cbn [forallb keepsProp andb] in H.
    destruct (IH (dispatch cards w e) H) as [evs E].
    exists (e :: evs). exact E.
Qed.

Lemma lifetime_events (cards : list Flashcard) (evs : list Event) :
  lifetime cards (map Fires evs) = (cards, run cards (mount cards) evs).
Proof.
  unfold lifetime, run. generalize (mount cards).
  induction evs as [| e evs IH]; intros w; [reflexivity |].
  cbn [map fold_left advance fst snd]. apply IH.
Qed.

(** A new value of the prop can leave the cursor past the end of a study
    queue that is not empty.  With the deck [[cardA; cardB]], knowing the
    first card and sending the second to review makes the screen report
    [[markMastered cardA; cardB]]; App stores that list as the cards of the
    deck while the screen is mounted, the first effect refills the study
    queue with the one unmastered card, and the cursor is still 1. *)
Lemma new_cards_leave_cursor_past_queue :
  let cards := [cardA; cardB] in
  let answers :=
    [Fires ClickFlip; Fires ClickKnown; Fires ClickFlip; Fires ClickReview] in
  let reported := [markMastered cardA; cardB] in
  completions (snd (lifetime cards answers)) = [reported] /\
  let s := view (snd (lifetime cards (answers ++ [NewCards reported]))) in
  studyCards s = [cardB] /\ currentIndex s = 1 /\ currentCard s = None.
Proof.
  cbv zeta. repeat split; reflexivity.
Qed.

(** C7 (amended).  At every moment of the life of the component, changes of
    the [cards] prop included: reading the current card never raises, it
    yields the element of the study queue at the cursor, which is
    [undefined] exactly when the cursor is not within the queue (so always
    when the queue is empty); while it is [undefined], [handleKnown] and
    [handleReview] return normally without any state update, timer call or
    [onComplete], and a click on either button leaves the component as it
    is.  As long as no step has replaced the prop, the cursor is within a
    queue that is not empty, so the current card is a card. *)
Theorem C7_current_card_is_undefined_or_at_cursor
  (cards : list Flashcard) (steps : list Step) :
  let prop := fst (lifetime cards steps) in
  let w := snd (lifetime cards steps) in
  let s := view w in
  readCurrentCard s = Normal (nth_error (studyCards s) (currentIndex s)) /\
  (currentCard s = None <-> List.length (studyCards s) <= currentIndex s) /\
  (studyCards s = [] -> currentCard s = None) /\
  (currentCard s = None ->
     invoke (handleKnown prop) s = Normal [] /\
     invoke (handleReview prop) s = Normal [] /\
     dispatch prop w ClickKnown = w /\
     dispatch prop w ClickReview = w) /\
  (forallb keepsProp steps = true -> studyCards s <> [] ->
     exists card,
       currentCard s = Some card /\
       currentIndex s < List.length (studyCards s)).
Proof.
  cbv zeta.
  destruct (lifetime_tracked cards steps) as [_ Hsettled].
  split; [reflexivity |].
  split; [apply nth_error_None |].
  split.
  { unfold currentCard. intros ->. now destruct (currentIndex _). }
  split.
  - intros Hc.
    destruct (handler_without_card (fst (lifetime cards steps)) _ Hc) as [Hk Hr].
    unfold invoke. cbn [dispatch]. unfold handle.
    rewrite Hk, Hr. cbn [performAll fold_left].
    rewrite (settle_settled Hsettled). repeat split.
  - intros Hfrozen Hsome.
    destruct (lifetime_frozen cards steps Hfrozen) as [evs E].
    rewrite E in *. cbn [fst snd] in *.
    pose proof (cursorInRange_run cards evs) as H. unfold cursorInRange in H.
    destruct H as [H | H]; [contradiction |].
    destruct (currentCard (view (run cards (mount cards) evs))) as [card |] eqn:N.
    + exists card. split; [reflexivity | exact H].
    + apply nth_error_None in N. lia.
Qed.

(** The parts of the timer behaviour that hold along every run. *)

(** A manual reveal cancels the pending timeout: afterwards nothing is
    pending, and no passing of time changes the render. *)
Lemma manual_flip_cancels_timer (cards : list Flashcard) (evs : list Event) (dt : N) :
  let w := run cards (mount cards) evs in
  let w' := dispatch cards w ClickFlip in
  isFlipped (view w) = false ->
  isFlipped (view w') = true /\ timers w' = [] /\
  view (elapse w' dt) = view w'.
Proof.
  cbv zeta. intros Hf.
  destruct (run_tracked cards evs) as [Ht _].
  set (w := run cards (mount cards) evs) in *.
  destruct (handleCardFlip_clears w Ht) as [Hc Hn]. rewrite Hf in Hn.
  destruct (settle_face_up _ Hc Hn) as [Hts Hfl].
  cbn [dispatch]. unfold handle. repeat split; auto.
  unfold elapse. rewrite Hts. reflexivity.
Qed.

(** When time passes, either nothing is due and nothing happens, or the one
    pending timeout fires: the card is then face up and nothing is pending
    any more.  (So the fuel of [fireDue] is enough: no due timeout is left
    behind.) *)
Lemma timer_fires_once (cards : list Flashcard) (evs : list Event) (dt : N) :
  let w := run cards (mount cards) evs in
  let w' := elapse w dt in
  (view w' = view w /\ timers w' = timers w /\
   forall p, In p (timers w) -> (clock w + dt < snd p)%N) \/
  (exists t due,
     timers w = [(t, due)] /\ (due <= clock w + dt)%N /\
     isFlipped (view w) = false /\
     isFlipped (view w') = true /\ timers w' = [] /\
     (currentIndex (view w'), studyCards (view w'), reviewQueue (view w'),
      completedCards (view w'))
     = (currentIndex (view w), studyCards (view w), reviewQueue (view w),
        completedCards (view w))).
Proof.
  cbv zeta. destruct (run_tracked cards evs) as [Ht _].
  set (w := run cards (mount cards) evs) in *.
  unfold elapse, timerTracked in *.
  destruct w as [s er ts ck nt cs]. world_fields.
  destruct ts as [| [t due] [| p rest]];
    [left; repeat split; intros p [] | | contradiction].
  cbn [List.length fireDue]. world_fields.
  change (find (fun p : TimerId * N => (snd p <=? ck + dt)%N) [(t, due)])
    with (if (due <=? ck + dt)%N then Some (t, due) else None).
  destruct (N.leb_spec due (ck + dt)) as [L | L];
    [| left; repeat split; intros p [<- | []]; exact L].
  right. exists t, due. destruct Ht as [Ha Hf].
  cbv iota. rewrite Nat.eqb_refl. world_fields.
  match goal with
  | |- context [settle ?w] => set (w1 := w)
  end.
  destruct (settle_face_up w1 eq_refl eq_refl) as [Hts Hfl].
  destruct (settle_shape w1) as (acts & Hb & Hv & _).
  pose proof (@session_bookkeeping acts (view w1) Hb) as Hsess.
  rewrite <- Hv in Hsess. unfold session in Hsess.
  injection Hsess as Hi _ Hsc Hrq Hcc.
  repeat split; auto. now rewrite Hi, Hsc, Hrq, Hcc.
Qed.

Lemma currentCard_after_handler (cards : list Flashcard) (s : State) (current : Flashcard) :
  currentCard s = Some current ->
  currentCard (commit s (handleKnown cards s)) <> None /\
  currentCard (commit s (handleReview cards s)) <> None /\
  isFlipped (commit s (handleKnown cards s)) = false /\
  isFlipped (commit s (handleReview cards s)) = false.
Proof.
  intros Hc.
  rewrite (commit_handleKnown cards s Hc), (commit_handleReview cards s Hc).
  unfold currentCard in *.
  destruct (Nat.ltb_spec (currentIndex s + 1) (List.length (studyCards s))).
  - cbn [currentIndex studyCards isFlipped].
    repeat split; auto; apply nth_error_Some; lia.
  - destruct (Nat.ltb_spec 0 (List.length (reviewQueue s)));
      cbn [currentIndex studyCards isFlipped];
      repeat split; auto; try (apply nth_error_Some; lia); congruence.
Qed.

(** After "I know this" or "Review again" on a revealed card, the card on
    screen is face down and exactly one timeout is pending, due
    [AUTO_FLIP_DELAY] after the click. *)
Lemma next_card_arms_timer (cards : list Flashcard) (evs : list Event)
  (e : Event) (current : Flashcard) :
  let w := run cards (mount cards) evs in
  let w' := dispatch cards w e in
  e = ClickKnown \/ e = ClickReview ->
  isFlipped (view w) = true ->
  currentCard (view w) = Some current ->
  isFlipped (view w') = false /\
  timers w' = [(nextTimer w, (clock w + AUTO_FLIP_DELAY)%N)].
Proof.
  cbv zeta. intros He Hf Hc.
  destruct (run_tracked cards evs) as [Ht Hs].
  set (w := run cards (mount cards) evs) in *.
  assert (Hts : timers w = []).
  { unfold timerTracked in Ht.
    destruct (timers w) as [| [t due] [| p rest]]; [reflexivity | | contradiction].
    destruct Ht as [_ Ht]. congruence. }
  destruct (handlers_quiet cards (view w)) as (Qk & Qr & _).
  destruct (currentCard_after_handler cards (view w) Hc) as (Ck & Cr & Fk & Fr).
  assert (G : forall h,
             forallb quiet (h (view w)) = true ->
             currentCard (commit (view w) (h (view w))) <> None ->
             isFlipped (commit (view w) (h (view w))) = false ->
             isFlipped (view (handle w h)) = false /\
             timers (handle w h) = [(nextTimer w, (clock w + AUTO_FLIP_DELAY)%N)]).
  { intros h Q C F. unfold handle.
    destruct (@quiet_performAll (h (view w)) w Q) as (T1 & K1 & N1 & E1 & _).
    set (w1 := performAll w (h (view w))) in *.
    assert (V1 : view w1 = commit (view w) (h (view w)))
      by apply view_performAll.
    destruct (currentCard (view w1)) as [card |] eqn:C1;
      [| rewrite V1 in C1; contradiction].
    assert (D : depsEqb (deps (view w1)) (deps (effectRender w1)) = false).
    { rewrite E1, Hs, V1. unfold deps, depsEqb. cbn [fst snd].
      rewrite F, Hf. cbn. apply andb_false_r. }
    rewrite <- V1 in F. rewrite Hts in T1.
    destruct (settle_arms w1 T1 D F C1) as [Ta _].
    rewrite Ta, N1, K1. split; [| reflexivity].
    destruct (settle_shape w1) as (acts & Hb & Hv & _).
    pose proof (@session_bookkeeping acts (view w1) Hb) as Hsess.
    rewrite <- Hv in Hsess. unfold session in Hsess.
    injection Hsess as _ Hi _ _ _. congruence. }
  destruct He as [-> | ->]; cbn [dispatch]; apply G; auto.
Qed.

(** C9 (the code departs from the specification).
    When the component is mounted
    the first card to study is on screen, face down, and no timeout is
    pending: the auto-flip effect ran in the first render, where the study
    queue was still empty, and its dependencies do not change when the
    queue is filled.  However much time passes, that card is not revealed:
    the render stays as it is. *)
Theorem C9_first_card_gets_no_reveal_timer (cards : list Flashcard) (dt : N) :
  let w := mount cards in
  currentCard (view w)
    = nth_error (filter (fun card => negb (mastered card)) cards) 0 /\
  isFlipped (view w) = false /\
  timers w = [] /\
  view (elapse w dt) = view w /\
  currentCard (view (mount [cardA])) = Some cardA /\
  isFlipped (view (elapse (mount [cardA]) AUTO_FLIP_DELAY)) = false.
Proof.
  cbv zeta. repeat split.
Qed.

End StudyModeFacts.

(* ================================================================== *)
(** ** Properties of the server routes *)

Module ServerFacts.
Import Js Server.

Local Open Scope Z_scope.

Lemma recordStudySession_longest (tz : Z) (stored : option UserProgress)
  (userId : string) (now : Z) :
  let p := recordStudySession tz stored userId now in
  longest_streak p = Z.max (longest_streak (previous stored userId)) (current_streak p).
Proof.
  unfold recordStudySession, previous. cbn [longest_streak current_streak].
  set (prev := match stored with Some p => p | None => initialProgress userId end).
  set (current := match last_study_date prev with Some _ => _ | None => _ end).
  destruct (Z.ltb_spec (longest_streak prev) current); lia.
Qed.

(** X1.  Whatever record is stored and whenever the session is recorded,
    the record the study-session route produces has
    [current_streak <= longest_streak]; its longest streak is the larger of
    the stored one and the new current streak, so it never goes down. *)
Theorem study_session_keeps_streak_order (tz : Z) (stored : option UserProgress)
  (userId : string) (now : Z) :
  let prev := previous stored userId in
  let p := recordStudySession tz stored userId now in
  current_streak p <= longest_streak p /\
  longest_streak p = Z.max (longest_streak prev) (current_streak p) /\
  longest_streak prev <= longest_streak p.
Proof.
  cbv zeta. pose proof (recordStudySession_longest tz stored userId now) as H.
  cbv zeta in H. rewrite H. lia.
Qed.

(** X2.  The streak the study-session route computes: 1 when there is no
    last study date; unchanged when the last study day is today; one more
    when it is the day before; 1 otherwise (a gap, or a last study day in
    the future). *)
Theorem study_session_streak_by_gap (tz : Z) (stored : option UserProgress)
  (userId : string) (now : Z) :
  let prev := previous stored userId in
  current_streak (recordStudySession tz stored userId now) =
    match last_study_date prev with
    | None => 1
    | Some last =>
        let gap := toDateString tz now - toDateString tz last in
        if gap =? 0 then current_streak prev
        else if gap =? 1 then current_streak prev + 1
        else 1
    end.
Proof.
  cbv zeta. unfold recordStudySession, previous. cbn [current_streak].
  set (prev := match stored with Some p => p | None => initialProgress userId end).
  destruct (last_study_date prev) as [last |]; [| reflexivity].
  rewrite OperationsFacts.toDateString_yesterday.
  destruct (Z.eqb_spec (toDateString tz last) (toDateString tz now)) as [E | E].
  - rewrite E, Z.sub_diag. reflexivity.
  - destruct (Z.eqb_spec (toDateString tz now - toDateString tz last) 0); [lia |].
    destruct (Z.eqb_spec (toDateString tz last) (toDateString tz now - 1)).
    + destruct (Z.eqb_spec (toDateString tz now - toDateString tz last) 1);
        [reflexivity | lia].
    + destruct (Z.eqb_spec (toDateString tz now - toDateString tz last) 1);
        [lia | reflexivity].
Qed.

(** X3.  The study-session route answers either 200 with the updated
    record, having written exactly that record under the user's key, or
    500, having written nothing; it answers 500 exactly when reading the
    request body, [kv.get] or [kv.set] throws.  The request body has no
    influence on the record: the card totals and the user id are the stored
    ones. *)
Theorem study_session_route_outcome (tz now : Z)
  (body : completion (string * Z))
  (kvGet : completion (option UserProgress)) (kvSetThrows : bool)
  (userId : string) :
  match studySessionRoute tz now body kvGet kvSetThrows userId with
  | (writes, Json p) =>
      writes = [(progressKey userId, p)] /\
      threw body = false /\ threw kvGet = false /\ kvSetThrows = false /\
      (exists stored,
         kvGet = Normal stored /\
         p = recordStudySession tz stored userId now /\
         total_cards p = total_cards (previous stored userId) /\
         mastered_cards p = mastered_cards (previous stored userId) /\
         user_id p = user_id (previous stored userId))
  | (writes, JsonError message status) =>
      writes = [] /\ status = 500 /\
      (threw body = true \/ threw kvGet = true \/ kvSetThrows = true)
  end.
Proof.
  unfold studySessionRoute.
  destruct body as [b | m], kvGet as [stored | m'], kvSetThrows; cbn;
    repeat split; auto.
  exists stored. repeat split.
Qed.

(** The client-side row that corresponds to a server record. *)
Lemma ofClientRow_fields (r : Operations.UserProgress) :
  current_streak (ofClientRow r) = Operations.current_streak r /\
  longest_streak (ofClientRow r) = Operations.longest_streak r /\
  last_study_date (ofClientRow r) = Operations.last_study_date r.
Proof. repeat split. Qed.

(** The two implementations run in different places, the browser and the
    edge function, and each reads calendar days in its own zone.  With the
    browser at UTC+05:30 and the server at UTC, a record with streak 3 last
    studied on 2024-01-10 at 17:00 UTC and a session at 19:00 UTC give the
    streak 4 in the browser, where midnight has passed, and 3 on the
    server. *)
Lemma streaks_differ_across_zones :
  let prev :=
    Operations.mkUserProgress Scenario.user 0 0 3 5 (Some (utc 2024 1 10 17)) 0 0 in
  let now := utc 2024 1 10 19 in
  fst (Operations.streakAfterStudy 19800000 (Some prev) now) = 4 /\
  current_streak
    (recordStudySession 0 (Some (ofClientRow prev)) Scenario.user now) = 3.
Proof.
  split; reflexivity.
Qed.



Lemma countCards_bounds (cardsOf : string -> completion (list Flashcard))
  (decks : list Deck) (t m t' m' : Z) :
  countCards cardsOf decks t m = Normal (t', m') ->
  0 <= m' - m <= t' - t.
Proof.
  revert t m. induction decks as [| d rest IH]; intros t m; cbn.
  - intros H. injection H as <- <-. lia.
  - destruct (cardsOf (deck_id d)) as [cards |]; [| discriminate].
    intros H. apply IH in H. unfold masteredCount in H.
    pose proof (filter_length_le (fun card => mastered card) cards). lia.
Qed.

(** X5.  GET /progress answers either 200 or 500.  On 200 the record has
    [0 <= mastered_cards <= total_cards], both counted from the cards of
    the user's decks, and the streak fields, the last study date and the
    user id of the stored record (or of the initial one); that record is
    the last write.  On 500 nothing was written, except the initial record
    when none was stored. *)
Theorem progress_route_outcome
  (kvGet : completion (option UserProgress))
  (decks : completion (list Deck))
  (cardsOf : string -> completion (list Flashcard))
  (kvSetThrows : bool) (userId : string) :
  match progressRoute kvGet decks cardsOf kvSetThrows userId with
  | (writes, Json p) =>
      0 <= mastered_cards p <= total_cards p /\
      (exists stored ds,
         kvGet = Normal stored /\ decks = Normal ds /\
         countCards cardsOf ds 0 0 = Normal (total_cards p, mastered_cards p) /\
         current_streak p = current_streak (previous stored userId) /\
         longest_streak p = longest_streak (previous stored userId) /\
         last_study_date p = last_study_date (previous stored userId) /\
         user_id p = user_id (previous stored userId) /\
         writes =
           match stored with
           | Some _ => []
           | None => [(progressKey userId, initialProgress userId)]
           end ++ [(progressKey userId, p)])
  | (writes, JsonError message status) =>
      status = 500 /\
      (writes = [] \/ (writes = [(progressKey userId, initialProgress userId)] /\
                       kvGet = Normal None))
  end.
Proof.
  unfold progressRoute.
  destruct kvGet as [[p0 |] | m]; destruct kvSetThrows;
    destruct decks as [ds | m'];
    try destruct (countCards cardsOf ds 0 0) as [[t mc] | m''] eqn:C;
    cbn [app]; auto.
  all: cbn [mastered_cards total_cards current_streak longest_streak
            last_study_date user_id previous].
  all: (split; [pose proof (countCards_bounds _ _ _ _ C); lia |]).
  - exists (Some p0), ds. repeat split; exact C.
  - exists None, ds. repeat split; exact C.
Qed.

(** X6.  GET /progress is idempotent: when a call answered 200 with a
    record, a second call that finds this record stored and the same decks
    and cards answers 200 with the same record and writes it once more,
    unchanged. *)
Theorem progress_route_idempotent
  (kvGet : completion (option UserProgress))
  (decks : completion (list Deck))
  (cardsOf : string -> completion (list Flashcard))
  (kvSetThrows : bool) (userId : string)
  (writes : list (string * UserProgress)) (p : UserProgress)
  (Hfirst : progressRoute kvGet decks cardsOf kvSetThrows userId = (writes, Json p)) :
  progressRoute (Normal (Some p)) decks cardsOf kvSetThrows userId
  = ([(progressKey userId, p)], Json p).
Proof.
  unfold progressRoute in *.
  destruct kvGet as [[p0 |] | m]; destruct kvSetThrows;
    destruct decks as [ds | m']; try discriminate;
    destruct (countCards cardsOf ds 0 0) as [[t mc] | m''] eqn:C;
    try discriminate;
    injection Hfirst as _ <-; reflexivity.
Qed.

Lemma progress_route_idempotent_witness :
  let cards := [mkFlashcard "c1" "f" "b" true "d1" None;
                mkFlashcard "c2" "f" "b" false "d1" None] in
  let decks := Normal [mkDeck "d1" "t" "" "u" None None] in
  let p := mkProgress "u" 2 1 0 0 None in
  progressRoute (Normal (Some p)) decks (fun _ => Normal cards) false "u"
  = ([(progressKey "u", p)], Json p).
Proof.
  exact (@progress_route_idempotent (Normal None)
           (Normal [mkDeck "d1" "t" "" "u" None None])
           (fun _ => Normal [mkFlashcard "c1" "f" "b" true "d1" None;
                             mkFlashcard "c2" "f" "b" false "d1" None])
           false "u" _ _ eq_refl).
Defined.

Lemma splitSpace_noSpace (s : string) :
  noSpace s = true -> splitSpace s = [s].
Proof.
  induction s as [| c rest IH]; cbn; [reflexivity |].
  intros H. apply andb_prop in H as [Hc Hrest].
  destruct (Ascii.eqb c " "); [discriminate |].
  now rewrite (IH Hrest).
Qed.

Lemma splitSpace_bearer (token : string) :
  noSpace token = true -> splitSpace (bearer token) = ["Bearer"%string; token].
Proof.
  intros H. unfold bearer. cbn. now rewrite (splitSpace_noSpace _ H).
Qed.

(** X7.  The server reads back the token the client sends: for a non-empty
    token without spaces, [requireAuth] on the header [`Bearer ${token}`]
    looks up exactly that token, runs the route for the user it belongs to,
    and answers 401 when it belongs to nobody. *)
Theorem bearer_token_round_trip {A : Type} (getUser : string -> option string)
  (token : string) (next : string -> Response A)
  (Hspace : noSpace token = true) (Hnonempty : token <> EmptyString) :
  accessToken (Some (bearer token)) = Some token /\
  requireAuth getUser (Some (bearer token)) next =
    match orNull (getUser token) with
    | Some userId => next userId
    | None => JsonError "Unauthorized" 401
    end.
Proof.
  assert (T : accessToken (Some (bearer token)) = Some token).
  { unfold accessToken. rewrite (splitSpace_bearer _ Hspace). cbn.
    destruct token; [contradiction | reflexivity]. }
  split; [exact T |]. unfold requireAuth. rewrite T. reflexivity.
Qed.

Lemma bearer_token_round_trip_witness :
  accessToken (Some (bearer "abc.def")) = Some "abc.def"%string /\
  requireAuth (fun t => if String.eqb t "abc.def" then Some "u1"%string else None)
              (Some (bearer "abc.def")) (fun userId => Json userId) =
    match orNull ((fun t => if String.eqb t "abc.def" then Some "u1"%string else None)
                    "abc.def"%string) with
    | Some userId => Json userId
    | None => JsonError "Unauthorized" 401
    end.
Proof.
  apply (@bearer_token_round_trip string
           (fun t => if String.eqb t "abc.def" then Some "u1"%string else None)
           "abc.def" (fun userId => Json userId)).
  - reflexivity.
  - discriminate.
Defined.

(** X8.  A request is refused with 401, whatever the route and whoever the
    token would belong to, when the Authorization header is absent, has no
    space (a bare token without scheme) or ends right after the scheme. *)
Theorem requests_without_bearer_token_are_refused {A : Type}
  (getUser : string -> option string) (header : string)
  (next : string -> Response A)
  (Hspace : noSpace header = true) :
  requireAuth getUser None next = JsonError "Unauthorized" 401 /\
  requireAuth getUser (Some header) next = JsonError "Unauthorized" 401 /\
  requireAuth getUser (Some (String.append header " ")) next
    = JsonError "Unauthorized" 401.
Proof.
  split; [reflexivity |]. split.
  - unfold requireAuth, accessToken. now rewrite (splitSpace_noSpace _ Hspace).
  - unfold requireAuth, accessToken.
    assert (S : splitSpace (String.append header " ") = [header; EmptyString]).
    { clear next. induction header as [| c rest IH]; [reflexivity |].
      cbn in Hspace |- *. apply andb_prop in Hspace as [Hc Hrest].
      destruct (Ascii.eqb c " "); [discriminate |].
      now rewrite (IH Hrest). }
    rewrite S. reflexivity.
Qed.

Lemma requests_without_bearer_token_are_refused_witness :
  requireAuth (fun _ => Some "u1"%string) None (fun userId => Json userId)
    = JsonError "Unauthorized" 401 /\
  requireAuth (fun _ => Some "u1"%string) (Some "abc.def"%string)
              (fun userId => Json userId)
    = JsonError "Unauthorized" 401 /\
  requireAuth (fun _ => Some "u1"%string)
              (Some (String.append "abc.def" " ")) (fun userId => Json userId)
    = JsonError "Unauthorized" 401.
Proof.
  apply (@requests_without_bearer_token_are_refused string
           (fun _ => Some "u1"%string) "abc.def" (fun userId => Json userId)).
  reflexivity.
Defined.

End ServerFacts.

(* ================================================================== *)
(** ** Further properties of the study session *)

Module StudyModeMore.
Import Js StudyMode StudyModeProps StudyModeFacts Scenario.

Lemma queues_benign (acts : list Action) (s : State) :
  forallb benign acts = true -> queues (commit s acts) = queues s.
Proof.
  revert s. induction acts as [| a acts IH]; intros s; [reflexivity |].
  cbn [forallb]. intros H. apply andb_prop in H as [Ha Hs].
  change (commit s (a :: acts)) with (commit (applyUpdate s a) acts).
  rewrite IH by assumption.
  destruct a; try discriminate; reflexivity.
Qed.

(** What an event does to the four cells and to the log of completions is
    what its handler does. *)
Lemma dispatch_queues (cards : list Flashcard) (w : World) (e : Event) :
  queues (view (dispatch cards w e))
    = queues (commit (view w) (handlerOf cards e (view w))) /\
  completions (dispatch cards w e)
    = rev (emitted (handlerOf cards e (view w))) ++ completions w.
Proof.
  destruct (dispatch_shape cards w e) as (acts & Hb & Hv & Hc).
  rewrite Hv, Hc. split; [now apply queues_benign | reflexivity].
Qed.

Lemma queues_fields (s : State) (i : nat) (sc rq cc : list Flashcard) :
  queues s = (i, sc, rq, cc) ->
  currentIndex s = i /\ studyCards s = sc /\ reviewQueue s = rq /\
  completedCards s = cc.
Proof.
  unfold queues. intros H. injection H as <- <- <- <-. auto.
Qed.

Lemma dispatch_flip_queues (cards : list Flashcard) (w : World) (e : Event) :
  isAnswer e = false -> isRestart e = false ->
  queues (view (dispatch cards w e)) = queues (view w) /\
  completions (dispatch cards w e) = completions w.
Proof.
  intros Ha Hr. destruct (dispatch_queues cards w e) as [Hq Hc].
  rewrite Hq, Hc. destruct e; try discriminate; cbn [handlerOf].
  - rewrite queues_benign, emitted_benign by apply handleCardFlip_benign.
    auto.
  - auto.
Qed.

(** What "I know this" does to the four cells and to the log when a card
    is on screen. *)
Lemma dispatch_known_queues (cards : list Flashcard) (w : World) (current : Flashcard) :
  currentCard (view w) = Some current ->
  let s := view w in
  let completed := completedCards s ++ [markMastered current] in
  (queues (view (dispatch cards w ClickKnown)),
   completions (dispatch cards w ClickKnown)) =
    if currentIndex s + 1 <? List.length (studyCards s) then
      ((currentIndex s + 1, studyCards s, reviewQueue s, completed),
       completions w)
    else if 0 <? List.length (reviewQueue s) then
      ((0, reviewQueue s, [], completed), completions w)
    else
      ((currentIndex s, studyCards s, reviewQueue s, completed),
       map (fun card =>
              if String.eqb (id card) (id current) then markMastered current
              else completedOr (completedCards s) card)
           cards :: completions w).
Proof.
  intros Hc. cbv zeta.
  destruct (dispatch_queues cards w ClickKnown) as [Hq He].
  cbn [handlerOf] in Hq, He.
  rewrite Hq, He, (commit_handleKnown cards _ Hc), (emitted_handleKnown cards _ Hc).
  destruct (currentIndex (view w) + 1 <? List.length (studyCards (view w)));
    [reflexivity |].
  destruct (0 <? List.length (reviewQueue (view w))); reflexivity.
Qed.

Lemma firstn_snoc {A : Type} (l : list A) (k : nat) (x : A) :
  nth_error l k = Some x -> firstn (S k) l = firstn k l ++ [x].
Proof.
  revert k. induction l as [| a l IH]; intros [| k]; cbn; try discriminate.
  - intros H. injection H as ->. reflexivity.
  - intros H. now rewrite <- (IH k H).
Qed.

Lemma knowAll_round (cards : list Flashcard) (k : nat) (w : World) :
  knownSoFar cards k w ->
  k + 1 < List.length (filter (fun card => negb (mastered card)) cards) ->
  knownSoFar cards (k + 1) (run cards w [ClickFlip; ClickKnown]).
Proof.
  intros [Hq Hc] Hk. cbn [run fold_left].
  destruct (dispatch_flip_queues cards w ClickFlip eq_refl eq_refl) as [Fq Fc].
  set (w1 := dispatch cards w ClickFlip) in *.
  rewrite Hq in Fq. rewrite Hc in Fc.
  destruct (queues_fields Fq) as (Hi & Hs & Hr & Hcc).
  set (unmastered := filter (fun card => negb (mastered card)) cards) in *.
  destruct (nth_error unmastered k) as [current |] eqn:Hn.
  2:{ apply nth_error_None in Hn. lia. }
  assert (Hcur : currentCard (view w1) = Some current).
  { unfold currentCard. now rewrite Hs, Hi. }
  pose proof (dispatch_known_queues cards w1 Hcur) as K. cbv zeta in K.
  rewrite Hi, Hs, Hr, Hcc, Fc in K.
  destruct (Nat.ltb_spec (k + 1) (List.length unmastered)); [| lia].
  apply pair_equal_spec in K as [Kq Kc]. split; [| exact Kc].
  fold unmastered. rewrite Kq. replace (k + 1) with (S k) by lia.
  rewrite (firstn_snoc _ _ Hn), map_app, app_assoc. reflexivity.
Qed.

Lemma knowAll_rounds (cards : list Flashcard) (j : nat) :
  forall k w,
    knownSoFar cards k w ->
    k + j < List.length (filter (fun card => negb (mastered card)) cards) ->
    knownSoFar cards (k + j) (run cards w (knowAll j)).
Proof.
  induction j as [| j IH]; intros k w Hw Hk.
  - cbn. now rewrite Nat.add_0_r.
  - cbn [knowAll].
    change (run cards w (ClickFlip :: ClickKnown :: knowAll j))
      with (run cards (run cards w [ClickFlip; ClickKnown]) (knowAll j)).
    replace (k + S j) with (k + 1 + j) by lia.
    apply IH; [| lia]. apply knowAll_round; [exact Hw | lia].
Qed.

Lemma knowAll_snoc (m : nat) :
  knowAll (S m) = knowAll m ++ [ClickFlip; ClickKnown].
Proof.
  induction m as [| m IH]; [reflexivity |].
  change (knowAll (S (S m))) with (ClickFlip :: ClickKnown :: knowAll (S m)).
  change (knowAll (S m) ++ [ClickFlip; ClickKnown])
    with (ClickFlip :: ClickKnown :: (knowAll m ++ [ClickFlip; ClickKnown])).
  now rewrite <- IH.
Qed.

Lemma knownSoFar_mount (cards : list Flashcard) : knownSoFar cards 0 (mount cards).
Proof.
  split; [| reflexivity]. rewrite view_mount. unfold queues. cbn.
  now rewrite app_nil_r.
Qed.

(** The all-known session, for any deck with a card to study. *)
Lemma knowAll_outcome (cards : list Flashcard)
  (Hsome : filter (fun card => negb (mastered card)) cards <> []) :
  let n := List.length (filter (fun card => negb (mastered card)) cards) in
  (forall k, k < n ->
     completions (run cards (mount cards) (knowAll k)) = []) /\
  exists out,
    completions (run cards (mount cards) (knowAll n)) = [out] /\
    Forall isMastered out /\
    map id out = map id cards /\
    reviewQueue (view (run cards (mount cards) (knowAll n))) = [].
Proof.
  cbv zeta.
  set (unmastered := filter (fun card => negb (mastered card)) cards) in *.
  set (known := filter (fun card => mastered card) cards).
  assert (Hn : List.length unmastered <> 0).
  { destruct unmastered; [contradiction | discriminate]. }
  split.
  - intros k Hk.
    exact (proj2 (@knowAll_rounds cards k 0 (mount cards)
                    (knownSoFar_mount cards) Hk)).
  - destruct (List.length unmastered) as [| m] eqn:Hlen; [contradiction |].
    rewrite knowAll_snoc, run_app.
    destruct (@knowAll_rounds cards m 0 (mount cards) (knownSoFar_mount cards))
      as [Hq Hc]; [fold unmastered; lia |].
    cbn [Nat.add] in Hq.
    set (w := run cards (mount cards) (knowAll m)) in *.
    cbn [run fold_left].
    destruct (dispatch_flip_queues cards w ClickFlip eq_refl eq_refl) as [Fq Fc].
    set (w1 := dispatch cards w ClickFlip) in *.
    rewrite Hq in Fq. rewrite Hc in Fc.
    destruct (queues_fields Fq) as (Hi & Hs & Hr & Hcc).
    fold unmastered known in Hi, Hs, Hr, Hcc.
    destruct (nth_error unmastered m) as [current |] eqn:Hnth.
    2:{ apply nth_error_None in Hnth. lia. }
    assert (Hcur : currentCard (view w1) = Some current).
    { unfold currentCard. now rewrite Hs, Hi. }
    pose proof (dispatch_known_queues cards w1 Hcur) as K. cbv zeta in K.
    rewrite Hi, Hs, Hr, Hcc, Fc, Hlen in K.
    destruct (Nat.ltb_spec (m + 1) (S m)); [lia |].
    cbn [List.length Nat.ltb Nat.leb] in K.
    apply pair_equal_spec in K as [Kq Kc].
    eexists. split; [exact Kc |].
    assert (Hall : unmastered = firstn m unmastered ++ [current]).
    { rewrite <- (firstn_snoc _ _ Hnth), <- Hlen. symmetry. apply firstn_all. }
    assert (HF : Forall isMastered (known ++ map markMastered (firstn m unmastered))).
    { apply Forall_app. split.
      - apply Forall_forall. intros c Hin. subst known.
        apply filter_In in Hin as [_ Hm]. exact Hm.
      - apply Forall_forall. intros c Hin.
        apply in_map_iff in Hin as (c0 & <- & _). reflexivity. }
    repeat split.
    + apply Forall_forall. intros o Hin.
      apply in_map_iff in Hin as (card & <- & Hcard).
      destruct (String.eqb (id card) (id current)) eqn:E; [reflexivity |].
      destruct (completedOr_cases
                  (known ++ map markMastered (firstn m unmastered)) card)
        as [[Hin _] | [-> Hno]].
      * exact (proj1 (Forall_forall _ _) HF _ Hin).
      * unfold isMastered. destruct (mastered card) eqn:Hm; [reflexivity |].
        exfalso.
        assert (Hu : In card unmastered).
        { subst unmastered. apply filter_In. split; [exact Hcard |].
          now rewrite Hm. }
        rewrite Hall in Hu. apply in_app_or in Hu as [Hu | [<- | []]].
        -- apply (Hno (markMastered card)); [| reflexivity].
           apply in_or_app. right. now apply in_map.
        -- rewrite String.eqb_refl in E. discriminate.
    + rewrite map_map. apply map_ext_in. intros card _.
      destruct (String.eqb (id card) (id current)) eqn:E.
      * apply String.eqb_eq in E. cbn. congruence.
      * destruct (completedOr_cases
                    (known ++ map markMastered (firstn m unmastered)) card)
          as [[_ Hid] | [-> _]]; auto.
    + destruct (queues_fields Kq) as (_ & _ & Hrq & _). exact Hrq.
Qed.

(** X9.  Revealing and knowing every card to study, one after the other,
    calls [onComplete] exactly once, at the last card and not before, with
    a list that has the ids of the deck in order and every card mastered;
    nothing is left in the review queue. *)
Theorem knowing_every_card_completes_the_session (cards : list Flashcard)
  (Hsome : filter (fun card => negb (mastered card)) cards <> []) :
  let n := List.length (filter (fun card => negb (mastered card)) cards) in
  (forall k, k < n ->
     completions (run cards (mount cards) (knowAll k)) = []) /\
  exists out,
    completions (run cards (mount cards) (knowAll n)) = [out] /\
    Forall isMastered out /\
    map id out = map id cards /\
    reviewQueue (view (run cards (mount cards) (knowAll n))) = [].
Proof.
  exact (@knowAll_outcome cards Hsome).
Qed.

Lemma knowing_every_card_completes_the_session_witness :
  let cards := [cardA; cardB] in
  let n := List.length (filter (fun card => negb (mastered card)) cards) in
  (forall k, k < n ->
     completions (run cards (mount cards) (knowAll k)) = []) /\
  exists out,
    completions (run cards (mount cards) (knowAll n)) = [out] /\
    Forall isMastered out /\
    map id out = map id cards /\
    reviewQueue (view (run cards (mount cards) (knowAll n))) = [].
Proof.
  apply (@knowing_every_card_completes_the_session [cardA; cardB]).
  discriminate.
Defined.

(** *** The reported list, exactly *)

Local Unset Implicit Arguments.

Lemma tally_queues (cards : list Flashcard) (known : list string) (s s' : State) :
  queues s = queues s' -> tally cards known s -> tally cards known s'.
Proof.
  unfold queues, tally, queuesSatisfy. intros H.
  injection H as _ Hs Hr Hc. now rewrite Hs, Hr, Hc.
Qed.

Lemma same_id_same_card (cards : list Flashcard) (c c' : Flashcard) :
  NoDup (map id cards) -> In c cards -> In c' cards -> id c = id c' -> c = c'.
Proof.
  induction cards as [| a cards IH]; cbn; [contradiction |].
  intros Hnd Hc Hc' Hid. inversion Hnd as [| x l Hnotin Hnd']; subst.
  destruct Hc as [-> | Hc], Hc' as [-> | Hc']; auto.
  - exfalso. apply Hnotin. rewrite Hid. now apply in_map.
  - exfalso. apply Hnotin. rewrite <- Hid. now apply in_map.
Qed.

Lemma markMastered_mastered (c : Flashcard) :
  mastered c = true -> markMastered c = c.
Proof. destruct c. cbn. now intros ->. Qed.

Lemma existsb_id (x : string) (known : list string) :
  existsb (String.eqb x) known = true <-> In x known.
Proof.
  rewrite existsb_exists. split.
  - intros (y & Hy & E). apply String.eqb_eq in E. now subst.
  - intros H. exists x. split; [exact H | apply String.eqb_refl].
Qed.

(** With distinct ids, looking a deck card up among the completed cards
    gives its mastered copy when its id is known and the card itself
    otherwise. *)
Lemma completedOr_tally (cards : list Flashcard) (known : list string)
  (s : State) (card : Flashcard) :
  NoDup (map id cards) -> tally cards known s -> In card cards ->
  completedOr (completedCards s) card =
    if existsb (String.eqb (id card)) known then markMastered card else card.
Proof.
  intros Hnd (_ & Hsound & Hcomplete) Hcard.
  destruct (completedOr_cases (completedCards s) card) as [[Hin Hid] | [Heq Hno]].
  - set (k := completedOr (completedCards s) card) in *.
    destruct (Hsound k Hin) as (c & Hc & [[Hk Hm] | [Hk Hkn]]).
    + assert (E : c = card).
      { apply (same_id_same_card cards); auto. congruence. }
      rewrite Hk, E. rewrite E in Hm.
      destruct (existsb _ known); [| reflexivity].
      symmetry. now apply markMastered_mastered.
    + assert (E : c = card).
      { apply (same_id_same_card cards); auto. rewrite Hk in Hid. exact Hid. }
      rewrite Hk, E. rewrite E in Hkn.
      now rewrite (proj2 (existsb_id _ _) Hkn).
  - rewrite Heq. destruct (existsb _ known) eqn:E; [| reflexivity].
    exfalso. apply existsb_id in E.
    exact (Hno _ (Hcomplete _ Hcard E) eq_refl).
Qed.

Lemma tally_known (cards : list Flashcard) (known : list string) (s : State)
  (current : Flashcard) (completed : list Flashcard) :
  NoDup (map id cards) -> In current cards ->
  (forall k, In k completed ->
     exists c, In c cards /\
       ((k = c /\ mastered c = true) \/
        (k = markMastered c /\ In (id c) known))) ->
  (forall c, In c cards -> In (id c) known -> In (markMastered c) completed) ->
  (forall k, In k (completed ++ [markMastered current]) ->
     exists c, In c cards /\
       ((k = c /\ mastered c = true) \/
        (k = markMastered c /\ In (id c) (id current :: known)))) /\
  (forall c, In c cards -> In (id c) (id current :: known) ->
     In (markMastered c) (completed ++ [markMastered current])).
Proof.
  intros Hnd Hcur Hsound Hcomplete. split.
  - intros k Hin. apply in_app_or in Hin as [Hin | [<- | []]].
    + destruct (Hsound _ Hin) as (c & Hc & [H | [Hk Hkn]]).
      * exists c. auto.
      * exists c. split; [exact Hc |]. right. split; [exact Hk |]. now right.
    + exists current. split; [exact Hcur |]. right. split; [reflexivity |].
      now left.
  - intros c Hc [Hid | Hkn]; apply in_or_app.
    + right. left. f_equal.
      exact (same_id_same_card cards current c Hnd Hcur Hc Hid).
    + left. now apply Hcomplete.
Qed.

(** One event: the tally is kept for the ids noted, and what the event
    reports is the answer sheet for those ids. *)
Lemma tally_step (cards : list Flashcard) (known : list string) (w : World) (e : Event) :
  NoDup (map id cards) -> tally cards known (view w) ->
  tally cards (noteKnown w e known) (view (dispatch cards w e)) /\
  exists new,
    completions (dispatch cards w e) = new ++ completions w /\
    List.length new <= 1 /\
    Forall (fun out => out = answerSheet (noteKnown w e known) cards) new.
Proof.
  intros Hnd Ht.
  destruct (dispatch_queues cards w e) as [Hq Hc].
  assert (Hsheet : forall kn, tally cards kn (view w) ->
            map (completedOr (completedCards (view w))) cards = answerSheet kn cards).
  { intros kn Hkn. apply map_ext_in. intros card Hcard.
    now apply (completedOr_tally cards kn). }
  split.
  - apply (tally_queues cards _ _ _ (eq_sym Hq)). clear Hq Hc.
    destruct Ht as (Hqs & Hsound & Hcomplete).
    destruct e; cbn [handlerOf noteKnown].
    + apply (tally_queues cards known (view w)).
      * symmetry. apply queues_benign, handleCardFlip_benign.
      * exact (conj Hqs (conj Hsound Hcomplete)).
    + destruct (currentCard (view w)) as [current |] eqn:Hcur.
      * assert (Hin : In current cards).
        { destruct Hqs as [Hs _].
          exact (proj1 (Forall_forall _ _) Hs _ (currentCard_In _ Hcur)). }
        destruct (tally_known cards known (view w) current
                    (completedCards (view w)) Hnd Hin Hsound Hcomplete)
          as [S1 C1].
        split; [| split].
        -- exact (@queuesSatisfy_step _ cards ClickKnown (view w) eq_refl Hqs).
        -- now rewrite (completedCards_handleKnown cards _ Hcur).
        -- now rewrite (completedCards_handleKnown cards _ Hcur).
      * rewrite (proj1 (handler_without_card cards _ Hcur)).
        exact (conj Hqs (conj Hsound Hcomplete)).
    + split; [| split].
      * exact (@queuesSatisfy_step _ cards ClickReview (view w) eq_refl Hqs).
      * now rewrite completedCards_handleReview.
      * now rewrite completedCards_handleReview.
    + split; [| split].
      * apply queuesSatisfy_restart. apply Forall_forall. auto.
      * cbn. intros k Hin. apply filter_In in Hin as [Hin Hm].
        exists k. auto.
      * intros c _ [].
    + exact (conj Hqs (conj Hsound Hcomplete)).
  - rewrite Hc. eexists. split; [reflexivity |]. rewrite length_rev.
    destruct e; cbn [handlerOf noteKnown].
    + rewrite emitted_benign by apply handleCardFlip_benign.
      split; [cbn; lia | constructor].
    + destruct (currentCard (view w)) as [current |] eqn:Hcur.
      * rewrite (emitted_handleKnown cards _ Hcur).
        destruct (_ <? _); [split; [cbn; lia | constructor] |].
        destruct (_ <? _); [split; [cbn; lia | constructor] |].
        split; [cbn; lia |]. cbn [rev app]. repeat constructor.
        apply map_ext_in. intros card Hcard.
        assert (Hin : In current cards).
        { destruct Ht as [[Hs _] _].
          exact (proj1 (Forall_forall _ _) Hs _ (currentCard_In _ Hcur)). }
        cbn [existsb].
        destruct (String.eqb (id card) (id current)) eqn:E.
        -- apply String.eqb_eq in E. cbn [orb]. f_equal.
           exact (same_id_same_card cards current card Hnd Hin Hcard (eq_sym E)).
        -- cbn [orb]. now apply (completedOr_tally cards known).
      * rewrite (proj1 (handler_without_card cards _ Hcur)).
        split; [cbn; lia | constructor].
    + destruct (currentCard (view w)) as [current |] eqn:Hcur.
      * rewrite (emitted_handleReview cards _ Hcur), emitted_nextCard.
        destruct (_ <? _); [split; [cbn; lia | constructor] |].
        destruct (_ <? _); [split; [cbn; lia | constructor] |].
        split; [cbn; lia |]. cbn [rev app]. repeat constructor.
        now apply Hsheet.
      * rewrite (proj2 (handler_without_card cards _ Hcur)).
        split; [cbn; lia | constructor].
    + split; [cbn; lia | constructor].
    + split; [cbn; lia | constructor].
Qed.

Lemma tally_run (cards : list Flashcard) (evs : list Event) :
  NoDup (map id cards) ->
  forall w known,
    tally cards known (view w) ->
    tally cards (knownIds cards w evs known) (view (run cards w evs)).
Proof.
  intros Hnd. induction evs as [| e evs IH]; intros w known Ht; [exact Ht |].
  cbn [knownIds run fold_left]. apply IH.
  exact (proj1 (tally_step cards known w e Hnd Ht)).
Qed.

Lemma tally_mount (cards : list Flashcard) : tally cards [] (view (mount cards)).
Proof.
  rewrite view_mount. split; [| split].
  - split; cbn; [| constructor]. apply Forall_forall. intros c Hin.
    now apply filter_In in Hin as [Hin _].
  - cbn. intros k Hin. apply filter_In in Hin as [Hin Hm]. exists k. auto.
  - intros c _ [].
Qed.

(** X10.  For a deck with distinct ids, whatever has happened in the
    session, an event reports at most one list to [onComplete], and that
    list is the deck in order with exactly the cards declared known since
    the last restart marked mastered: no other card is changed, none is
    dropped or added. *)
Theorem reported_list_is_the_answer_sheet (cards : list Flashcard)
  (evs : list Event) (e : Event)
  (Hids : NoDup (map id cards)) :
  let w := run cards (mount cards) evs in
  let known := noteKnown w e (knownIds cards (mount cards) evs []) in
  exists new,
    completions (dispatch cards w e) = new ++ completions w /\
    List.length new <= 1 /\
    Forall (fun out => out = answerSheet known cards) new.
Proof.
  cbv zeta. apply tally_step; [exact Hids |].
  apply tally_run; [exact Hids |]. apply tally_mount.
Qed.

Lemma reported_list_is_the_answer_sheet_witness :
  let cards := [cardA; cardB] in
  let evs := [ClickFlip; ClickKnown; ClickFlip] in
  let w := run cards (mount cards) evs in
  let known := noteKnown w ClickKnown (knownIds cards (mount cards) evs []) in
  exists new,
    completions (dispatch cards w ClickKnown) = new ++ completions w /\
    List.length new <= 1 /\
    Forall (fun out => out = answerSheet known cards) new.
Proof.
  apply (reported_list_is_the_answer_sheet [cardA; cardB]
           [ClickFlip; ClickKnown; ClickFlip] ClickKnown).
  repeat constructor; cbn; intuition discriminate.
Defined.

(** *** The session ends *)

Lemma passShape_queues (s s' : State) :
  queues s = queues s' ->
  (passShape s -> passShape s') /\ potential s' = potential s.
Proof.
  unfold queues, passShape, potential. intros H.
  injection H as Hi Hs Hr _. rewrite Hi, Hs, Hr. auto.
Qed.

Lemma potential_floor (s : State) : passShape s -> 2 <= potential s.
Proof.
  unfold passShape, potential. intros [_ H]. nia.
Qed.

(** The arithmetic of one answer that does not end the session: within the
    pass the cursor moves on; at the end of the pass the deferred cards,
    fewer than the pass had, become the next pass. *)
Lemma potential_drops (i L R : nat) (deferred : nat) :
  R <= i -> i < L -> deferred <= R + 1 ->
  (i + 1 < L ->
     deferred <= i + 1 /\ L * (L + 1) - 2 * (i + 1) + 2 <= L * (L + 1) - 2 * i) /\
  (L <= i + 1 -> 0 < R ->
     R * (R + 1) - 2 * 0 + 2 <= L * (L + 1) - 2 * i).
Proof.
  intros HR Hi Hd. split.
  - intros H. split; [lia |]. nia.
  - intros H HR0. assert (i = L - 1) by lia. subst i.
    assert (R * (R + 1) <= (L - 1) * L) by nia.
    nia.
Qed.

Lemma answer_step (cards : list Flashcard) (e : Event) (s : State) :
  passShape s -> isAnswer e = true ->
  emitted (handlerOf cards e s) = [] ->
  passShape (commit s (handlerOf cards e s)) /\
  potential (commit s (handlerOf cards e s)) + 2 <= potential s.
Proof.
  intros [HR Hi] He Hem.
  destruct (currentCard s) as [current |] eqn:Hc.
  2:{ apply nth_error_None in Hc. lia. }
  destruct (potential_drops (currentIndex s) (List.length (studyCards s))
              (List.length (reviewQueue s)) (List.length (reviewQueue s))
              HR Hi ltac:(lia)) as [Hin Hend].
  destruct (potential_drops (currentIndex s) (List.length (studyCards s))
              (List.length (reviewQueue s)) (List.length (reviewQueue s) + 1)
              HR Hi ltac:(lia)) as [Hin' _].
  destruct e; try discriminate; cbn [handlerOf] in *.
  - rewrite (emitted_handleKnown cards s Hc) in Hem.
    rewrite (commit_handleKnown cards s Hc).
    unfold passShape, potential.
    destruct (Nat.ltb_spec (currentIndex s + 1) (List.length (studyCards s))).
    + cbn [currentIndex studyCards reviewQueue]. destruct (Hin H). lia.
    + destruct (Nat.ltb_spec 0 (List.length (reviewQueue s))); [| discriminate].
      cbn [currentIndex studyCards reviewQueue List.length].
      specialize (Hend H H0). lia.
  - rewrite (emitted_handleReview cards s Hc), emitted_nextCard in Hem.
    rewrite (commit_handleReview cards s Hc).
    unfold passShape, potential.
    destruct (Nat.ltb_spec (currentIndex s + 1) (List.length (studyCards s))).
    + cbn [currentIndex studyCards reviewQueue]. rewrite length_app.
      cbn [List.length]. destruct (Hin' H). lia.
    + destruct (Nat.ltb_spec 0 (List.length (reviewQueue s))); [| discriminate].
      cbn [currentIndex studyCards reviewQueue List.length].
      specialize (Hend H H0). lia.
Qed.

Lemma completions_grow (cards : list Flashcard) (evs : list Event) (w : World) :
  exists new, completions (run cards w evs) = new ++ completions w.
Proof.
  revert w. induction evs as [| e evs IH]; intros w; [now exists [] |].
  cbn [run fold_left]. destruct (IH (dispatch cards w e)) as (new & Hn).
  destruct (dispatch_queues cards w e) as [_ Hc].
  eexists. unfold run in Hn. rewrite Hn, Hc, app_assoc. reflexivity.
Qed.

Lemma answers_bounded (cards : list Flashcard) (evs : list Event) :
  forall w,
    passShape (view w) ->
    forallb (fun e => negb (isRestart e)) evs = true ->
    completions (run cards w evs) = completions w ->
    2 * List.length (filter isAnswer evs) + 2 <= potential (view w).
Proof.
  induction evs as [| e evs IH]; intros w Hs Hno Hopen.
  - cbn. pose proof (potential_floor (view w) Hs). lia.
  - cbn [forallb] in Hno. apply andb_prop in Hno as [He Hno].
    cbn [run fold_left] in Hopen.
    destruct (completions_grow cards evs (dispatch cards w e)) as (new & Hn).
    destruct (dispatch_queues cards w e) as [Hq Hc].
    unfold run in Hn. rewrite Hn, Hc in Hopen.
    assert (Hlen : List.length (new ++ rev (emitted (handlerOf cards e (view w)))
                                ++ completions w)
                   = List.length (completions w)) by now rewrite Hopen.
    rewrite !length_app, length_rev in Hlen.
    assert (Hnew : new = []) by (destruct new; [reflexivity | cbn in Hlen; lia]).
    assert (Hem : emitted (handlerOf cards e (view w)) = []).
    { destruct (emitted _); [reflexivity | cbn in Hlen; lia]. }
    subst new. cbn [app] in Hn.
    destruct (passShape_queues _ _ (eq_sym Hq)) as [Hshape Hpot].
    cbn [filter]. destruct (isAnswer e) eqn:Ha.
    + destruct (answer_step cards e (view w) Hs Ha Hem) as [Hs' Hp].
      specialize (IH (dispatch cards w e) (Hshape Hs') Hno Hn).
      rewrite Hpot in IH. cbn [List.length]. lia.
    + assert (Hsame : queues (commit (view w) (handlerOf cards e (view w)))
                      = queues (view w)).
      { destruct e; try discriminate; cbn [handlerOf].
        - apply queues_benign, handleCardFlip_benign.
        - reflexivity. }
      destruct (passShape_queues _ _ (eq_sym Hsame)) as [Hshape' Hpot'].
      specialize (IH (dispatch cards w e) (Hshape (Hshape' Hs)) Hno Hn).
      rewrite Hpot, Hpot' in IH. exact IH.
Qed.

(** X11.  A session cannot go on for ever.  With [n >= 1] cards to study
    and no restart, as long as [onComplete] has not been called the number
    of answers given (known or review again) is at most
    [n * (n + 1) / 2 - 1]: each pass is shorter than the one before, even
    when every card is sent to review. *)
Theorem session_completes_within_bound (cards : list Flashcard) (evs : list Event)
  (Hno : forallb (fun e => negb (isRestart e)) evs = true)
  (Hsome : filter (fun card => negb (mastered card)) cards <> [])
  (Hopen : completions (run cards (mount cards) evs) = []) :
  let n := List.length (filter (fun card => negb (mastered card)) cards) in
  2 * List.length (filter isAnswer evs) + 2 <= n * (n + 1).
Proof.
  cbv zeta.
  assert (Hs : passShape (view (mount cards))).
  { rewrite view_mount. unfold passShape. cbn.
    destruct (filter (fun card => negb (mastered card)) cards);
      [contradiction | cbn; lia]. }
  pose proof (answers_bounded cards evs (mount cards) Hs Hno Hopen) as H.
  rewrite view_mount in H. unfold potential in H. cbn in H. lia.
Qed.

Lemma session_completes_within_bound_witness :
  let cards := [cardA; cardB] in
  let evs := [ClickFlip; ClickReview; Elapse 7000; ClickReview] in
  let n := List.length (filter (fun card => negb (mastered card)) cards) in
  2 * List.length (filter isAnswer evs) + 2 <= n * (n + 1).
Proof.
  apply (session_completes_within_bound [cardA; cardB]
           [ClickFlip; ClickReview; Elapse 7000; ClickReview]).
  - reflexivity.
  - discriminate.
  - reflexivity.
Defined.

(** *** The reveal timer *)

(** X12.  Along every run at most one timeout is pending; its handle is the
    one held in the [autoFlipTimer] cell, the card on screen is face down
    while it is pending, and the auto-flip effect has run for the cursor
    and face on screen. *)
Theorem at_most_one_timeout_pending (cards : list Flashcard) (evs : list Event) :
  let w := run cards (mount cards) evs in
  List.length (timers w) <= 1 /\
  (forall t due, In (t, due) (timers w) ->
     autoFlipTimer (view w) = Some t /\ isFlipped (view w) = false) /\
  deps (effectRender w) = deps (view w).
Proof.
  cbv zeta. destruct (run_tracked cards evs) as [Ht Hs].
  unfold timerTracked, settled in *.
  destruct (timers (run cards (mount cards) evs)) as [| [t0 due0] [| p rest]];
    [| | contradiction].
  - split; [cbn; lia |]. split; [intros t due [] | exact Hs].
  - split; [cbn; lia |]. split; [| exact Hs].
    intros t due [H | []]. injection H as <- <-. exact Ht.
Qed.

(** X13.  A manual reveal of a face-down card cancels the pending timeout:
    the card is face up, nothing is pending, and no passing of time changes
    the render afterwards. *)
Theorem manual_reveal_cancels_the_timer (cards : list Flashcard)
  (evs : list Event) (dt : N)
  (Hdown : isFlipped (view (run cards (mount cards) evs)) = false) :
  let w' := dispatch cards (run cards (mount cards) evs) ClickFlip in
  isFlipped (view w') = true /\ timers w' = [] /\
  view (elapse w' dt) = view w'.
Proof.
  exact (manual_flip_cancels_timer cards evs dt Hdown).
Qed.

Lemma manual_reveal_cancels_the_timer_witness :
  let cards := [cardA; cardB] in
  let evs := [ClickFlip; ClickKnown; Elapse 1000] in
  let w' := dispatch cards (run cards (mount cards) evs) ClickFlip in
  isFlipped (view w') = true /\ timers w' = [] /\
  view (elapse w' 9000) = view w'.
Proof.
  exact (manual_reveal_cancels_the_timer [cardA; cardB]
           [ClickFlip; ClickKnown; Elapse 1000] 9000 eq_refl).
Defined.

Lemma clock_performAll (acts : list Action) (w : World) :
  clock (performAll w acts) = clock w.
Proof.
  revert w. induction acts as [| a acts IH]; intros w; [reflexivity |].
  change (performAll w (a :: acts)) with (performAll (perform w a) acts).
  rewrite IH. destruct a; reflexivity.
Qed.

Lemma clock_handle (w : World) (h : State -> list Action) :
  clock (handle w h) = clock w.
Proof.
  unfold handle, settle. destruct (depsEqb _ _); cbn [clock];
    now rewrite ?clock_performAll.
Qed.

(** X14.  After "I know this" or "Review again" on a revealed card, the
    card that comes on screen is face down, and with no further click it is
    revealed by the timer exactly when [AUTO_FLIP_DELAY] = 5000 ms have
    passed: not before, and at the latest then. *)
Theorem next_card_is_revealed_after_the_delay (cards : list Flashcard)
  (evs : list Event) (e : Event) (current : Flashcard) (dt : N)
  (Hanswer : isAnswer e = true)
  (Hup : isFlipped (view (run cards (mount cards) evs)) = true)
  (Hcard : currentCard (view (run cards (mount cards) evs)) = Some current) :
  let w' := dispatch cards (run cards (mount cards) evs) e in
  isFlipped (view w') = false /\
  isFlipped (view (elapse w' dt)) = (AUTO_FLIP_DELAY <=? dt)%N.
Proof.
  cbv zeta.
  assert (He : e = ClickKnown \/ e = ClickReview)
    by (destruct e; try discriminate; auto).
  destruct (next_card_arms_timer cards evs He Hup Hcard) as [Hdown Harmed].
  split; [exact Hdown |].
  pose proof (timer_fires_once cards (evs ++ [e]) dt) as F. cbv zeta in F.
  rewrite run_app in F. cbn [run fold_left] in F.
  set (w := run cards (mount cards) evs) in *.
  assert (Hclock : clock (dispatch cards w e) = clock w).
  { destruct He as [-> | ->]; apply clock_handle. }
  rewrite Harmed, Hclock in F.
  destruct F as [(Hv & _ & Hlate) | (t & due & Ht & Hdue & _ & Hfl & _)].
  - rewrite Hv, Hdown. specialize (Hlate _ (or_introl eq_refl)). cbn in Hlate.
    symmetry. apply N.leb_gt. lia.
  - injection Ht as _ <-. rewrite Hfl. symmetry. apply N.leb_le. lia.
Qed.

Lemma next_card_is_revealed_after_the_delay_witness :
  let cards := [cardA; cardB] in
  let w' := dispatch cards (run cards (mount cards) [ClickFlip]) ClickReview in
  isFlipped (view w') = false /\
  isFlipped (view (elapse w' 4999)) = (AUTO_FLIP_DELAY <=? 4999)%N.
Proof.
  exact (next_card_is_revealed_after_the_delay [cardA; cardB] [ClickFlip]
           ClickReview cardA 4999 eq_refl eq_refl eq_refl).
Defined.

End StudyModeMore.

(* ================================================================== *)
(** ** Properties of saving a deck *)

Module AppFacts.
Import Js App.

Local Unset Implicit Arguments.
Local Open Scope Z_scope.

Lemma cardsData_rows (deckId : string) (cards : list (string * string)) :
  Forall (fun row => ins_mastered row = false /\ ins_deck_id row = deckId)
         (cardsData deckId cards) /\
  map (fun row => (ins_front row, ins_back row)) (cardsData deckId cards) = cards.
Proof.
  unfold cardsData. split.
  - apply Forall_forall. intros row Hin.
    apply in_map_iff in Hin as (card & <- & _). auto.
  - rewrite map_map. cbn. rewrite <- (map_id cards) at 2.
    apply map_ext. now intros [f b].
Qed.

(** X15.  [replaceCards] first asks for all cards of the deck to be deleted,
    whatever follows.  The rows it then inserts are the given fronts and
    backs in order, for that deck, every one with [mastered = false]; with
    an empty list it sends the delete alone and returns no rows; it fails
    only when the insert is rejected. *)
Theorem replaceCards_requests (deckId : string) (cards : list (string * string))
  (env : Env) :
  let sent := fst (replaceCards deckId cards env) in
  let result := snd (replaceCards deckId cards env) in
  sent = DeleteCards deckId ::
         match cards with
         | [] => []
         | _ :: _ => [InsertCards (cardsData deckId cards)]
         end /\
  Forall (fun row => ins_mastered row = false /\ ins_deck_id row = deckId)
         (insertedRows sent) /\
  map (fun row => (ins_front row, ins_back row)) (insertedRows sent) = cards /\
  result =
    match cards with
    | [] => Normal []
    | _ :: _ =>
        match rejects env (InsertCards (cardsData deckId cards)) with
        | Some message => Throw message
        | None => Normal (cardsData deckId cards)
        end
    end.
Proof.
  cbv zeta. destruct (cardsData_rows deckId cards) as [Hrows Hmap].
  unfold replaceCards, addCards, bind, sendIgnoring, send, ret.
  destruct cards as [| card rest].
  - cbn. repeat split; constructor.
  - destruct (rejects env _) eqn:R; cbn [fst snd app insertedRows flat_map];
      rewrite ?app_nil_r; repeat split; auto.
Qed.

Lemma saveDeck_sent (d : Deck) (env : Env) :
  match orNull (signedIn env) with
  | None => saveDeck d env = ([], Throw "Not authenticated")
  | Some userId =>
      exists k,
        fst (saveDeck d env) = firstn (S k) (saveRequests userId d (now env)) /\
        (threw (snd (saveDeck d env)) = false ->
         fst (saveDeck d env) = saveRequests userId d (now env))
  end.
Proof.
  unfold saveDeck, updateDeck, updateDeckStats, replaceCards, addCards,
    bind, send, sendIgnoring, ret, requireUser, saveRequests.
  destruct (orNull (signedIn env)) as [userId |]; [| reflexivity].
  destruct (rejects env (UpdateDeck _ _ _ _)).
  - exists 0%nat. cbn. split; [reflexivity | discriminate].
  - destruct (cards d) as [| card rest] eqn:Hc.
    + cbn. destruct (rejects env _); exists 1%nat; cbn; auto.
    + cbn [map]. set (rows := cardsData (id d) _).
      destruct (rejects env (InsertCards rows)).
      * exists 2%nat. cbn. split; [reflexivity | discriminate].
      * cbn. destruct (rejects env _); exists 3%nat; cbn; auto.
Qed.

(** What [handleUpdateDeck] sends is a beginning of the full sequence. *)
Lemma handleUpdateDeck_sent (st : AppState) (d : Deck) (env : Env) :
  exists k userId,
    fst (handleUpdateDeck st d env)
    = firstn k (saveRequests userId d (now env) ++ [SyncUserProgress]).
Proof.
  unfold handleUpdateDeck, send.
  pose proof (saveDeck_sent d env) as S.
  destruct (orNull (signedIn env)) as [userId |].
  - destruct S as (k & Hk & Hfull).
    destruct (saveDeck d env) as [sent0 [[] | m]]; cbn [fst snd] in *.
    + specialize (Hfull eq_refl). rewrite Hfull.
      exists (List.length (saveRequests userId d (now env)) + 1)%nat, userId.
      destruct (rejects env SyncUserProgress); cbn [fst];
        symmetry; apply firstn_all2; rewrite length_app; cbn; lia.
    + exists (Nat.min (S k) (List.length (saveRequests userId d (now env)))), userId.
      rewrite Hk, firstn_app.
      replace (Nat.min (S k) (List.length (saveRequests userId d (now env)))
               - List.length (saveRequests userId d (now env)))%nat
        with 0%nat by lia.
      change (firstn 0 [SyncUserProgress]) with (@nil Request).
      rewrite app_nil_r.
      destruct (Nat.le_ge_cases (S k)
                  (List.length (saveRequests userId d (now env)))) as [L | L].
      * now rewrite Nat.min_l by exact L.
      * rewrite Nat.min_r by exact L. now rewrite !firstn_all2 by lia.
  - rewrite S. exists 0%nat, EmptyString. reflexivity.
Qed.

Lemma firstn_In {A : Type} (n : nat) (l : list A) (x : A) :
  In x (firstn n l) -> In x l.
Proof.
  intros H. rewrite <- (firstn_skipn n l). apply in_or_app. now left.
Qed.

Lemma saveRequests_members (userId : string) (d : Deck) (at_ : Z) (r : Request) :
  In r (saveRequests userId d at_ ++ [SyncUserProgress]) ->
  r = UpdateDeck (id d) userId (title d) (description d) \/
  r = DeleteCards (id d) \/
  r = InsertCards
        (cardsData (id d)
           (map (fun card => (StudyMode.front card, StudyMode.back card))
                (cards d))) \/
  r = UpdateDeckStats (id d) userId (countOf (cards d)) (masteredOf (cards d)) at_ \/
  r = SyncUserProgress.
Proof.
  unfold saveRequests. intros H.
  destruct (cards d) as [| card rest]; cbn in H; intuition auto.
Qed.

(** What [handleCompleteStudy] sends and where it leaves the screen. *)
Lemma handleCompleteStudy_sent (st : AppState)
  (updatedCards : list StudyMode.Flashcard) (env : Env) :
  let sent := fst (handleCompleteStudy st updatedCards env) in
  Forall (fun row => ins_mastered row = false) (insertedRows sent) /\
  (forall deckId userId cardCount mastered lastStudied,
     In (UpdateDeckStats deckId userId cardCount mastered lastStudied) sent ->
     orNull (selectedDeckId st) = Some deckId /\
     cardCount = countOf updatedCards /\
     mastered = masteredOf updatedCards /\
     lastStudied = now env) /\
  currentScreen (snd (handleCompleteStudy st updatedCards env)) =
    match orNull (selectedDeckId st) with
    | Some _ => DeckView
    | None => currentScreen st
    end.
Proof.
  cbv zeta. unfold handleCompleteStudy.
  destruct (orNull (selectedDeckId st)) as [selected |].
  2:{ cbn. split; [constructor |]. split; [| reflexivity].
      intros deckId userId cardCount mastered lastStudied []. }
  destruct (find _ (decks st)) as [deck0 |] eqn:F.
  2:{ cbn. split; [constructor |]. split; [| reflexivity].
      intros deckId userId cardCount mastered lastStudied []. }
  apply find_some in F as [_ Hid]. apply String.eqb_eq in Hid.
  set (d := mkDeck _ _ _ updatedCards _ _ _).
  destruct (handleUpdateDeck_sent st d env) as (k & user & Hsent).
  destruct (handleUpdateDeck st d env) as [sent st']. cbn [fst snd] in *.
  split; [| split; [| reflexivity]].
  - apply Forall_forall. intros row Hin. unfold insertedRows in Hin.
    apply in_flat_map in Hin as (r & Hr & Hrow).
    rewrite Hsent in Hr. apply firstn_In in Hr.
    apply saveRequests_members in Hr.
    destruct Hr as [-> | [-> | [-> | [-> | ->]]]]; try contradiction.
    exact (proj1 (proj1 (Forall_forall _ _)
                    (proj1 (cardsData_rows _ _)) _ Hrow)).
  - intros deckId userId cardCount mastered lastStudied Hin.
    rewrite Hsent in Hin. apply firstn_In in Hin.
    apply saveRequests_members in Hin.
    destruct Hin as [H | [H | [H | [H | H]]]]; try discriminate.
    injection H as -> _ -> -> ->. subst d. cbn. now rewrite Hid.
Qed.

(** X16.  Whatever the answers, what [handleCompleteStudy] sends for the
    list reported by a study session never writes a mastered card: every
    card row it inserts has [mastered = false].  The mastery of the session
    reaches the database only as numbers: a stats update it sends is for the
    selected deck and carries the length of the reported list and the
    number of mastered cards in it. *)
Theorem study_result_is_saved_as_counts (st : AppState)
  (updatedCards : list StudyMode.Flashcard) (env : Env) :
  let sent := fst (handleCompleteStudy st updatedCards env) in
  Forall (fun row => ins_mastered row = false) (insertedRows sent) /\
  (forall deckId userId cardCount mastered lastStudied,
     In (UpdateDeckStats deckId userId cardCount mastered lastStudied) sent ->
     orNull (selectedDeckId st) = Some deckId /\
     cardCount = countOf updatedCards /\
     mastered = masteredOf updatedCards /\
     lastStudied = now env) /\
  currentScreen (snd (handleCompleteStudy st updatedCards env)) =
    match orNull (selectedDeckId st) with
    | Some _ => DeckView
    | None => currentScreen st
    end.
Proof.
  exact (handleCompleteStudy_sent st updatedCards env).
Qed.

(** X17.  Replacing the cards of a deck is not atomic.  When the user is
    signed in, the deck has cards, the deck update is accepted and the
    insert of the new rows is rejected, [handleUpdateDeck] has sent the
    deck update, the delete of all cards of the deck and the rejected
    insert, in this order, and nothing after: no stats update, no progress
    sync.  The local decks are as before and the sync status is the error
    status. *)
Theorem rejected_insert_leaves_cards_deleted (st : AppState) (d : Deck)
  (env : Env) (userId message : string)
  (Huser : orNull (signedIn env) = Some userId)
  (Hcards : cards d <> [])
  (Hdeck : rejects env (UpdateDeck (id d) userId (title d) (description d)) = None)
  (Hinsert :
     rejects env
       (InsertCards
          (cardsData (id d)
             (map (fun card => (StudyMode.front card, StudyMode.back card))
                  (cards d)))) = Some message) :
  handleUpdateDeck st d env =
    ([UpdateDeck (id d) userId (title d) (description d);
      DeleteCards (id d);
      InsertCards
        (cardsData (id d)
           (map (fun card => (StudyMode.front card, StudyMode.back card))
                (cards d)))],
     withStatus st SyncError).
Proof.
  unfold handleUpdateDeck, saveDeck, updateDeck, updateDeckStats, replaceCards,
    addCards, bind, send, sendIgnoring, ret, requireUser.
  rewrite Huser, Hdeck.
  destruct (cards d) as [| card rest]; [contradiction |].
  cbn [map] in *. rewrite Hinsert. reflexivity.
Qed.

Lemma rejected_insert_leaves_cards_deleted_witness :
  let d := mkDeck "d1" "Capitals" "" [Scenario.cardA] 1 0 "Never" in
  let st := mkAppState DeckView (Some "d1"%string) [d] Idle in
  let env :=
    mkEnv (Some "u1"%string) 0
          (fun r => match r with
                    | InsertCards _ => Some "row too large"%string
                    | _ => None
                    end) in
  handleUpdateDeck st d env =
    ([UpdateDeck "d1" "u1" "Capitals" "";
      DeleteCards "d1";
      InsertCards
        (cardsData "d1"
           (map (fun card => (StudyMode.front card, StudyMode.back card))
                [Scenario.cardA]))],
     withStatus st SyncError).
Proof.
  cbv zeta.
  apply (rejected_insert_leaves_cards_deleted
           (mkAppState DeckView (Some "d1"%string)
              [mkDeck "d1" "Capitals" "" [Scenario.cardA] 1 0 "Never"] Idle)
           (mkDeck "d1" "Capitals" "" [Scenario.cardA] 1 0 "Never")
           _ "u1"%string "row too large"%string);
    [reflexivity | discriminate | reflexivity | reflexivity].
Defined.

Lemma all_mastered_counts (out : list StudyMode.Flashcard) :
  Forall StudyModeProps.isMastered out -> masteredOf out = countOf out.
Proof.
  unfold masteredOf, countOf, StudyModeProps.isMastered.
  induction 1 as [| card rest Hcard _ IH]; [reflexivity |].
  cbn [filter]. rewrite Hcard. cbn [List.length].
  apply Nat2Z.inj in IH. now rewrite IH.
Qed.

(** X18.  The study screen and the app together: when the learner reveals
    and knows every card to study, the list the screen reports, handed to
    [handleCompleteStudy], is saved as a fully mastered deck in numbers
    only.  A stats update sent carries the size of the deck both as card
    count and as mastered count, while every card row inserted has
    [mastered = false]. *)
Theorem all_known_session_is_saved_as_mastered_counts
  (deckCards : list StudyMode.Flashcard) (st : AppState) (env : Env)
  (Hsome :
     filter (fun card => negb (StudyMode.mastered card)) deckCards <> []) :
  let n :=
    List.length
      (filter (fun card => negb (StudyMode.mastered card)) deckCards) in
  exists out,
    StudyMode.completions
      (StudyMode.run deckCards (StudyMode.mount deckCards)
         (StudyModeProps.knowAll n)) = [out] /\
    let sent := fst (handleCompleteStudy st out env) in
    (forall deckId userId cardCount mastered lastStudied,
       In (UpdateDeckStats deckId userId cardCount mastered lastStudied) sent ->
       cardCount = Z.of_nat (List.length deckCards) /\
       mastered = Z.of_nat (List.length deckCards)) /\
    Forall (fun row => ins_mastered row = false) (insertedRows sent).
Proof.
  cbv zeta.
  destruct (@StudyModeMore.knowAll_outcome deckCards Hsome)
    as (_ & out & Hout & Hall & Hids & _).
  exists out. split; [exact Hout |].
  destruct (handleCompleteStudy_sent st out env) as (Hrows & Hstats & _).
  split; [| exact Hrows].
  intros deckId userId cardCount mastered lastStudied Hin.
  destruct (Hstats _ _ _ _ _ Hin) as (_ & -> & -> & _).
  rewrite (all_mastered_counts out Hall). unfold countOf.
  apply (f_equal (@List.length _)) in Hids. rewrite !length_map in Hids.
  rewrite Hids. split; reflexivity.
Qed.

Lemma all_known_session_is_saved_as_mastered_counts_witness :
  let deckCards := [Scenario.cardA; Scenario.cardB] in
  let d := mkDeck "d1" "Capitals" "" deckCards 2 0 "Never" in
  let st := mkAppState StudyModeView (Some "d1"%string) [d] Idle in
  let env := mkEnv (Some "u1"%string) 0 (fun _ => None) in
  let n :=
    List.length
      (filter (fun card => negb (StudyMode.mastered card)) deckCards) in
  exists out,
    StudyMode.completions
      (StudyMode.run deckCards (StudyMode.mount deckCards)
         (StudyModeProps.knowAll n)) = [out] /\
    let sent := fst (handleCompleteStudy st out env) in
    (forall deckId userId cardCount mastered lastStudied,
       In (UpdateDeckStats deckId userId cardCount mastered lastStudied) sent ->
       cardCount = Z.of_nat (List.length deckCards) /\
       mastered = Z.of_nat (List.length deckCards)) /\
    Forall (fun row => ins_mastered row = false) (insertedRows sent).
Proof.
  cbv zeta.
  apply (all_known_session_is_saved_as_mastered_counts
           [Scenario.cardA; Scenario.cardB]).
  discriminate.
Defined.

End AppFacts.
